(** * version-flow: a shallow embedding of [version_flow/core.py]

    The development follows the two classes of the module:

    - [Version]: parsing of a version string into a triple of integers and
      the comparison [is_greater_than];
    - [VersionFlow]: the connectivity probe, the update check against the
      GitHub release endpoint and the (unfinished) download step.

    Python values are modelled as the code has them: [str] as [string]
    (sequences of ASCII characters), [int] as [Z] (unbounded), a tuple of
    three ints as [Z * Z * Z], [None]-able parameters as [option].
    Exceptions are an inductive type and fallible code returns [result].
    The effects of [VersionFlow] (attribute updates on [self], warnings,
    outbound GET requests) are threaded through a small state-and-error
    monad; the answers of the network are an oracle of the environment.

    Outside the model: non-ASCII text (Unicode digits and spaces accepted by
    [int]), interpreter resource limits (the cap on the number of digits of
    an integer literal, memory), and a warnings filter that turns warnings
    into errors. *)

From Stdlib Require Import ZArith List String Ascii Bool Lia.
Import ListNotations.

Open Scope string_scope.
Open Scope Z_scope.

(* ================================================================== *)
(** * Definitions *)
(* ================================================================== *)

(** ** The [requests] library, as far as [core.py] relies on it *)

Module Requests.

(** The classes of [requests.exceptions] that a GET or [Response.json]
    can raise.  [ConnectTimeout] derives from both [ConnectionError]
    and [Timeout]; [ReadTimeout] derives from [Timeout] only. *)
Inductive exception : Type :=
| ConnectionError
| ProxyError
| SSLError
| ConnectTimeout
| ReadTimeout
| TooManyRedirects
| MissingSchema
| InvalidSchema
| InvalidURL
| ChunkedEncodingError
| ContentDecodingError
| JSONDecodeError.

(** [isinstance(e, requests.ConnectionError)] *)
Definition is_ConnectionError (e : exception) : bool :=
  match e with
  | ConnectionError | ProxyError | SSLError | ConnectTimeout => true
  | _ => false
  end.

(** [isinstance(e, requests.ConnectTimeout)] *)
Definition is_ConnectTimeout (e : exception) : bool :=
  match e with
  | ConnectTimeout => true
  | _ => false
  end.

End Requests.

(** ** Exceptions and results *)

(** What [release_['tag_name']] can raise, by the type of [release_]. *)
Inductive subscript_error : Type :=
| KeyError (key : string)          (* a dict without the key *)
| NotSubscriptable.                (* TypeError: list, str, number, None *)

Inductive exn : Type :=
| GitHubTokenErr (msg : string)
| ServerResponseErr (msg : string)
| ReleaseTagErr (cause : subscript_error)
    (* message: 'Failed to get tag from release: {}'.format(cause) *)
| FilesNotSetErr (msg : string)
| ValueError (literal : string)
    (* invalid literal for int() with base 10 *)
| AttributeError (attr : string)
    (* object has no attribute [attr] *)
| TypeError (msg : string)
| RequestsError (e : Requests.exception).

Inductive result (A : Type) : Type :=
| Ok (a : A)
| Raise (e : exn).

Arguments Ok {A} a.
Arguments Raise {A} e.

Definition rbind {A B : Type} (r : result A) (k : A -> result B) : result B :=
  match r with
  | Ok a => k a
  | Raise e => Raise e
  end.

Declare Scope result_scope.
Delimit Scope result_scope with result.
Notation "x <-- r ;; k" := (rbind r (fun x => k))
  (at level 61, r at next level, right associativity) : result_scope.

(** ** Python built-ins used by [Version] *)

Module Py.

(** *** [int(s)] on a string, base 10 *)

(** [Py_ISSPACE] on ASCII: tab, line feed, vertical tab, form feed,
    carriage return and space. *)
Definition is_space (c : ascii) : bool :=
  let n := nat_of_ascii c in
  (((9 <=? n) && (n <=? 13)) || (n =? 32))%nat.

Definition digit_val (c : ascii) : option Z :=
  let n := nat_of_ascii c in
  if ((48 <=? n) && (n <=? 57))%nat then Some (Z.of_nat (n - 48)) else None.

Fixpoint skip_space (s : string) : string :=
  match s with
  | String c r => if is_space c then skip_space r else s
  | EmptyString => s
  end.

(** The digit loop of [PyLong_FromString]: digits accumulate into [acc];
    a single underscore is allowed between two digits.  [prev_us] tells
    whether the previous character was an underscore.  The result is the
    value read and the unread rest of the string. *)
Fixpoint scan_digits (s : string) (prev_us : bool) (acc : Z)
  : option (Z * string) :=
  match s with
  | String c r =>
      match digit_val c with
      | Some d => scan_digits r false (10 * acc + d)
      | None =>
          if Ascii.eqb c "_"
          then (if prev_us then None else scan_digits r true acc)
          else (if prev_us then None else Some (acc, s))
      end
  | EmptyString => if prev_us then None else Some (acc, s)
  end.

(** After the optional sign the literal must start with a digit (an
    empty literal and a leading underscore are rejected). *)
Definition scan_literal (s : string) : option (Z * string) :=
  match s with
  | String c _ =>
      match digit_val c with
      | Some _ => scan_digits s false 0
      | None => None
      end
  | EmptyString => None
  end.

(** [int(s)]: surrounding whitespace, an optional sign, the digits, and
    nothing else.  [None] stands for the [ValueError]. *)
Definition int_opt (s : string) : option Z :=
  let s1 := skip_space s in
  let '(neg, s2) :=
    match s1 with
    | String c r =>
        if Ascii.eqb c "+" then (false, r)
        else if Ascii.eqb c "-" then (true, r)
        else (false, s1)
    | EmptyString => (false, s1)
    end in
  match scan_literal s2 with
  | Some (v, rest) =>
      match skip_space rest with
      | EmptyString => Some (if neg then - v else v)
      | String _ _ => None
      end
  | None => None
  end.

Definition int (s : string) : result Z :=
  match int_opt s with
  | Some z => Ok z
  | None => Raise (ValueError s)
  end.

(** *** [str(n)] on an int, as used by ['{}'.format(n)] *)

Definition digit_char (d : Z) : ascii := ascii_of_nat (48 + Z.to_nat d).

(** The decimal digits of [n >= 0] in front of [acc], least significant
    digit first.  [fuel] bounds the number of further digits. *)
Fixpoint str_digits (fuel : nat) (n : Z) (acc : string) : string :=
  let acc' := String (digit_char (n mod 10)) acc in
  match fuel with
  | O => acc'
  | S f => if n / 10 =? 0 then acc' else str_digits f (n / 10) acc'
  end.

Definition str_nonneg (n : Z) : string :=
  str_digits (Z.to_nat (Z.log2 n)) n "".

Definition str (z : Z) : string :=
  if z <? 0 then String "-" (str_nonneg (- z)) else str_nonneg z.

(** *** [s.startswith('v')], [s[1:]] and [s.split('.')] *)

Definition startswith (s p : string) : bool := String.prefix p s.

Definition slice_from_1 (s : string) : string :=
  match s with
  | String _ r => r
  | EmptyString => EmptyString
  end.

Fixpoint split (sep : ascii) (s : string) : list string :=
  match s with
  | EmptyString => [EmptyString]
  | String c r =>
      if Ascii.eqb c sep then EmptyString :: split sep r
      else match split sep r with
           | h :: t => String c h :: t
           | [] => [String c EmptyString]
           end
  end.

(** Every character of [s] satisfies [p]; [not_char c] is "differs
    from [c]". *)
Fixpoint all_chars (p : ascii -> bool) (s : string) : bool :=
  match s with
  | EmptyString => true
  | String c r => p c && all_chars p r
  end.

Definition not_char (c x : ascii) : bool := negb (Ascii.eqb x c).

(** Comparison of tuples of three ints: lexicographic. *)
Definition tuple_lt (a b : Z * Z * Z) : bool :=
  let '(a0, a1, a2) := a in
  let '(b0, b1, b2) := b in
  (a0 <? b0) || ((a0 =? b0) && ((a1 <? b1) || ((a1 =? b1) && (a2 <? b2)))).

(** [max(l)] on a non-empty list [best :: l]: the first maximal item. *)
Fixpoint max_from (best : Z * Z * Z) (l : list (Z * Z * Z)) : Z * Z * Z :=
  match l with
  | [] => best
  | x :: r => max_from (if tuple_lt best x then x else best) r
  end.

End Py.

(** ** class [Version] *)

Record Version : Type := { version : string }.

(** ['v{}.{}.{}'.format(t[0], t[1], t[2])] *)
Definition format_version (t : Z * Z * Z) : string :=
  let '(major, minor, patch) := t in
  "v" ++ Py.str major ++ "." ++ Py.str minor ++ "." ++ Py.str patch.

(** [Version.parse] *)
Definition parse (version : string) : result (Z * Z * Z) :=
  let version :=
    if Py.startswith version "v" then Py.slice_from_1 version else version in
  let parts := Py.split "." version in
  (major <-- Py.int (nth 0 parts "") ;;
   minor <-- (if (1 <? List.length parts)%nat then Py.int (nth 1 parts "") else Ok 0) ;;
   patch <-- (if (2 <? List.length parts)%nat then Py.int (nth 2 parts "") else Ok 0) ;;
   Ok (major, minor, patch))%result.

(** [Version.__init__] *)
Definition Version_init (s : string) : result Version :=
  (parsed <-- parse s ;;
   Ok {| version := format_version parsed |})%result.

(** [Version.is_greater_than] *)
Definition is_greater_than (self : Version) (version_to_check : string)
  : result bool :=
  (p_self <-- parse (version self) ;;
   p_other <-- parse version_to_check ;;
   let latest := Py.max_from p_self [p_other] in
   let latest_in_string := format_version latest in
   Ok (String.eqb latest_in_string (version self)))%result.

(** The dot-separated segments [parse] works on: [parts]. *)
Definition segments (version : string) : list string :=
  Py.split "." (if Py.startswith version "v" then Py.slice_from_1 version
                else version).

(** Lexicographic "strictly greater" on triples, as the specification
    words it: major, then minor, then patch. *)
Definition triple_gt (a b : Z * Z * Z) : Prop :=
  let '(a0, a1, a2) := a in
  let '(b0, b1, b2) := b in
  a0 > b0 \/ (a0 = b0 /\ (a1 > b1 \/ (a1 = b1 /\ a2 > b2))).

Definition triple_ge (a b : Z * Z * Z) : Prop := triple_gt a b \/ a = b.

(** ** The environment of [VersionFlow] *)

(** A decoded JSON document, as [Response.json] returns it.  The members
    of an object are kept in document order. *)
#[local] Set Warnings "-register-all".
Inductive json : Type :=
| JNull
| JBool (b : bool)
| JInt (z : Z)
| JFloat (literal : string)
| JStr (s : string)
| JList (items : list json)
| JDict (members : list (string * json)).

(** A scalar Python value, for the extra positional arguments
    [*update_method_args]. *)
Inductive pyarg : Type :=
| ArgNone
| ArgBool (b : bool)
| ArgInt (z : Z)
| ArgStr (s : string).

(** ['{}'.format(a)] *)
Definition format_arg (a : pyarg) : string :=
  match a with
  | ArgNone => "None"
  | ArgBool true => "True"
  | ArgBool false => "False"
  | ArgInt z => Py.str z
  | ArgStr s => s
  end.

(** A callable is opaque: only its identity matters. *)
Definition callable : Type := string.

Definition headers : Type := list (string * string).

Record request : Type := {
  req_url : string;
  req_headers : option headers;
  req_timeout : option Z
}.

Record response : Type := {
  status_code : Z;
  reason : string;
  url : string;
  body : option json   (* [None]: the body is not a JSON document *)
}.

(** What [requests.get] does: it returns a response or raises. *)
Inductive outcome : Type :=
| Responded (r : response)
| Failed (e : Requests.exception).

Inductive warning_category : Type :=
| PrivateRepositoryWarning
| DownloadDirectoryWarning.

(** The observable effects of a call, in the order they happen. *)
Inductive event : Type :=
| Warn (category : warning_category) (msg : string)
| Get (r : request).

(** The environment: the answer of the network to the [n]-th request of
    the run, and the working directory of the process. *)
Record world : Type := {
  net : nat -> request -> outcome;
  cwd : string
}.

(** ** class [VersionFlow] *)

Record VersionFlow : Type := {
  internet_status : bool;
  update_available : bool
}.

(** The state threaded through a call: the object [self] and the log of
    effects so far. *)
Record state : Type := {
  self : VersionFlow;
  log : list event
}.

Definition M (A : Type) : Type := state -> result A * state.

Definition ret {A : Type} (a : A) : M A := fun st => (Ok a, st).

Definition raise {A : Type} (e : exn) : M A := fun st => (Raise e, st).

Definition bind {A B : Type} (m : M A) (k : A -> M B) : M B :=
  fun st =>
    match m st with
    | (Ok a, st') => k a st'
    | (Raise e, st') => (Raise e, st')
    end.

Declare Scope vf_scope.
Delimit Scope vf_scope with vf.
Notation "x <- m ;; k" := (bind m (fun x => k))
  (at level 61, m at next level, right associativity) : vf_scope.
Notation "m ;;; k" := (bind m (fun _ => k))
  (at level 61, right associativity) : vf_scope.

(** A pure computation that may raise. *)
Definition lift {A : Type} (r : result A) : M A := fun st => (r, st).

(** [try: m except <classes accepted by handles>: handler] *)
Definition try_except {A : Type} (m : M A) (handles : exn -> bool)
  (handler : M A) : M A :=
  fun st =>
    match m st with
    | (Ok a, st') => (Ok a, st')
    | (Raise e, st') => if handles e then handler st' else (Raise e, st')
    end.

Definition emit (e : event) : M unit :=
  fun st => (Ok tt, {| self := self st; log := log st ++ [e] |}).

(** [warnings.warn(msg, category=category, stacklevel=2)] *)
Definition warn (category : warning_category) (msg : string) : M unit :=
  emit (Warn category msg).

Definition set_internet_status (b : bool) : M unit :=
  fun st =>
    (Ok tt, {| self := {| internet_status := b;
                          update_available := update_available (self st) |};
               log := log st |}).

Definition set_update_available (b : bool) : M unit :=
  fun st =>
    (Ok tt, {| self := {| internet_status := internet_status (self st);
                          update_available := b |};
               log := log st |}).

Definition is_get (e : event) : bool :=
  match e with
  | Get _ => true
  | Warn _ _ => false
  end.

(** The number of requests issued so far. *)
Definition requests_sent (l : list event) : nat :=
  List.length (filter is_get l).

Section WithWorld.

Variable w : world.

(** [requests.get(url=..., headers=..., timeout=...)] *)
Definition requests_get (r : request) : M response :=
  fun st =>
    let st' := {| self := self st; log := log st ++ [Get r] |} in
    match net w (requests_sent (log st)) r with
    | Responded resp => (Ok resp, st')
    | Failed e => (Raise (RequestsError e), st')
    end.

(** [Response.raise_for_status]: the message of the [HTTPError] it
    raises, if it raises. *)
Definition raise_for_status (resp : response) : option string :=
  let code := status_code resp in
  if (400 <=? code) && (code <? 500) then
    Some (Py.str code ++ " Client Error: " ++ reason resp
          ++ " for url: " ++ url resp)
  else if (500 <=? code) && (code <? 600) then
    Some (Py.str code ++ " Server Error: " ++ reason resp
          ++ " for url: " ++ url resp)
  else None.

(** [Response.json] *)
Definition response_json (resp : response) : M json :=
  match body resp with
  | Some j => ret j
  | None => raise (RequestsError Requests.JSONDecodeError)
  end.

(** [d[key]] on a dict built from the members of a JSON object: a later
    member replaces an earlier one of the same name. *)
Fixpoint dict_get (members : list (string * json)) (key : string)
  : option json :=
  match members with
  | [] => None
  | (k, v) :: rest =>
      match dict_get rest key with
      | Some v' => Some v'
      | None => if String.eqb k key then Some v else None
      end
  end.

(** [release_['tag_name']] *)
Definition subscript (release_ : json) (key : string)
  : result json :=
  match release_ with
  | JDict members =>
      match dict_get members key with
      | Some v => Ok v
      | None => Raise (ReleaseTagErr (KeyError key))
      end
  | _ => Raise (ReleaseTagErr NotSubscriptable)
  end.

(** [Version(release_tag)]: a tag that is not a string has no
    [startswith]. *)
Definition Version_of_json (release_tag : json) : result Version :=
  match release_tag with
  | JStr s => Version_init s
  | _ => Raise (AttributeError "startswith")
  end.

(** [VersionFlow.__init__] *)
Definition VersionFlow_init : VersionFlow :=
  {| internet_status := false; update_available := false |}.

Definition default_timeout : Z := 3.
Definition default_server : string := "https://www.google.com".

(** [VersionFlow.check_internet_connection] *)
Definition check_internet_connection (timeout : Z) (server : string)
  : M unit :=
  try_except
    (response <- requests_get {| req_url := server;
                                 req_headers := None;
                                 req_timeout := Some timeout |} ;;
     set_internet_status (status_code response =? 200))%vf
    (fun e =>
       match e with
       | RequestsError e' =>
           Requests.is_ConnectionError e' || Requests.is_ConnectTimeout e'
       | _ => false
       end)
    (ret tt).

(** [VersionFlow.__enter__] *)
Definition VersionFlow_enter : M unit :=
  check_internet_connection default_timeout default_server.

(** ["https://api.github.com/repos/{}/{}/releases/{}".format(...)] *)
Definition api_url (username repository release : string) : string :=
  "https://api.github.com/repos/" ++ username ++ "/" ++ repository
  ++ "/releases/" ++ release.

Definition auth_headers (token : string) : headers :=
  [("Authorization", "token " ++ token);
   ("Accept", "application/vnd.github.v3+json")].

Definition token_missing_msg : string :=
  "The private parameter is set to True, however, no API Token was provided.".
Definition token_unneeded_msg : string :=
  "The private parameter is set to False, however, an API_TOKEN has been provided. This practice is discouraged.".
Definition no_directory_msg : string :=
  "No Download Directory was provided. Defaulting to current.".
Definition no_files_msg : string :=
  "Update parameter is set to True but no Files are provided.".

(** The [if]/[elif] chain that defines [headers], the same in
    [check_for_updates_in_github] and in [update_from_github]: a token
    with [private] gives the headers, no token with [private] raises, a
    token without [private] warns and gives the headers, and neither
    leaves [headers = None]. *)
Definition define_headers (private : bool)
  (if_private_then_api_token : option string) : M (option headers) :=
  match if_private_then_api_token with
  | Some token =>
      if private then ret (Some (auth_headers token))
      else (warn PrivateRepositoryWarning token_unneeded_msg ;;;
            ret (Some (auth_headers token)))%vf
  | None =>
      if private then raise (GitHubTokenErr token_missing_msg)
      else ret None
  end.

(** The request for the release ([requests.get] with or without
    [headers]) followed by [raise_for_status], whose exception is
    wrapped into [ServerResponseErr]; the same in both methods. *)
Definition get_release (api : string) (hdrs : option headers)
  : M response :=
  (response <- requests_get {| req_url := api;
                               req_headers := hdrs;
                               req_timeout := None |} ;;
   match raise_for_status response with
   | Some e => raise (ServerResponseErr ("Failed to connect: " ++ e))
   | None => ret response
   end)%vf.

(** [VersionFlow.update_from_github] *)
Definition update_from_github
  (username repository : string)
  (files_to_download : list string)
  (download_directory : option string)
  (target_version : pyarg)
  (private : bool)
  (if_private_then_api_token : option string)
  (update_method : option callable)
  (update_method_args : list pyarg) : M unit :=
  (download_directory <-
     match download_directory with
     | None => warn DownloadDirectoryWarning no_directory_msg ;;; ret (cwd w)
     | Some d => ret d
     end ;;
   let api := api_url username repository (format_arg target_version) in
   hdrs <- define_headers private if_private_then_api_token ;;
   response <- get_release api hdrs ;;
   ret tt)%vf.

(** The call
    [self.update_from_github(username, repository, files_to_download,
      download_directory, private=..., if_private_then_api_token=...,
      update_method=..., *update_method_args)]:
    the items of [update_method_args] are further positional arguments,
    so the first binds [target_version] and a second one would bind
    [private], which the call also passes by keyword. *)
Definition call_update_from_github
  (username repository : string)
  (files_to_download : list string)
  (download_directory : string)
  (private : bool)
  (if_private_then_api_token : option string)
  (update_method : option callable)
  (update_method_args : list pyarg) : M unit :=
  match update_method_args with
  | [] =>
      update_from_github username repository files_to_download
        (Some download_directory) (ArgStr "latest") private
        if_private_then_api_token update_method []
  | [target_version] =>
      update_from_github username repository files_to_download
        (Some download_directory) target_version private
        if_private_then_api_token update_method []
  | _ :: _ :: _ =>
      raise (TypeError
        "VersionFlow.update_from_github() got multiple values for argument 'private'")
  end.

(** [VersionFlow.check_for_updates_in_github]; the value returned is the
    tag or [None]. *)
Definition check_for_updates_in_github
  (current_version username repository release : string)
  (private : bool)
  (if_private_then_api_token : option string)
  (update : bool)
  (files_to_download : option (list string))
  (download_directory : option string)
  (update_method : option callable)
  (update_method_args : list pyarg) : M (option json) :=
  (let api := api_url username repository release in
   hdrs <- define_headers private if_private_then_api_token ;;
   response <- get_release api hdrs ;;
   release_ <- response_json response ;;
   release_tag <- lift (subscript release_ "tag_name") ;;
   v <- lift (Version_of_json release_tag) ;;
   greater <- lift (is_greater_than v current_version) ;;
   if greater then
     set_update_available true ;;;
     if negb update then ret (Some release_tag)
     else
       match files_to_download with
       | None => raise (FilesNotSetErr no_files_msg)
       | Some files =>
           download_directory <-
             match download_directory with
             | None =>
                 warn DownloadDirectoryWarning no_directory_msg ;;;
                 ret (cwd w)
             | Some d => ret d
             end ;;
           call_update_from_github username repository files
             download_directory private if_private_then_api_token
             update_method update_method_args ;;;
           ret None
       end
   else ret None)%vf.

End WithWorld.

(** A run starts with an empty log. *)
Definition start (vf : VersionFlow) : state := {| self := vf; log := [] |}.

(** ** Vocabulary of the statements *)

(** The request for the release [release] of [username/repository]. *)
Definition release_request (username repository release : string)
  (token : option string) : request :=
  {| req_url := api_url username repository release;
     req_headers := option_map auth_headers token;
     req_timeout := None |}.

(** The request of the connectivity probe. *)
Definition probe_request (timeout : Z) (server : string) : request :=
  {| req_url := server; req_headers := None; req_timeout := Some timeout |}.

(** The credential parameters pass validation. *)
Definition credentials_ok (private : bool) (token : option string) : bool :=
  match token with
  | Some _ => true
  | None => negb private
  end.

(** The advisory the validation emits. *)
Definition advisory (private : bool) (token : option string) : list event :=
  match token with
  | Some _ =>
      if private then []
      else [Warn PrivateRepositoryWarning token_unneeded_msg]
  | None => []
  end.

(** The advisory for a missing download directory. *)
Definition directory_advisory (download_directory : option string)
  : list event :=
  match download_directory with
  | None => [Warn DownloadDirectoryWarning no_directory_msg]
  | Some _ => []
  end.

Definition is_GitHubTokenErr (e : exn) : bool :=
  match e with
  | GitHubTokenErr _ => true
  | _ => false
  end.

(** What a run leaves behind once the credentials passed: the request for
    the release follows the advisory in the log, and the outcome is not
    the credential error. *)
Definition proceeds (st : state) (private : bool) (token : option string)
  (before : list event) (req : request) {A : Type} (run : result A * state)
  : Prop :=
  (exists tail,
      log (snd run)
      = (log st ++ before ++ advisory private token ++ Get req :: tail)%list) /\
  (forall e, fst run = Raise e -> is_GitHubTokenErr e = false).

(** A network that gives the same answer to every request. *)
Definition always (o : outcome) : world :=
  {| net := fun _ _ => o; cwd := "/home/user/app" |}.

(** The answer [404 Not Found]. *)
Definition not_found : response :=
  {| status_code := 404;
     reason := "Not Found";
     url := "https://api.github.com/repos/u/r/releases/latest";
     body := Some (JDict [("message", JStr "Not Found")]) |}.

(** A release document without a tag. *)
Definition release_without_tag : response :=
  {| status_code := 200;
     reason := "OK";
     url := "https://api.github.com/repos/u/r/releases/latest";
     body := Some (JDict [("name", JStr "release")]) |}.

(** A release document with the tag [tag]. *)
Definition release_with_tag (tag : string) : response :=
  {| status_code := 200;
     reason := "OK";
     url := "https://api.github.com/repos/u/r/releases/latest";
     body := Some (JDict [("name", JStr "release"); ("tag_name", JStr tag)]) |}.

(** The object once a newer release was found. *)
Definition found (vf : VersionFlow) : VersionFlow :=
  {| internet_status := internet_status vf; update_available := true |}.

(** The release the download step asks for when it is called from
    [check_for_updates_in_github]: the first extra positional argument, or
    the default of [target_version]. *)
Definition download_target (update_method_args : list pyarg) : string :=
  match update_method_args with
  | [] => "latest"
  | a :: _ => format_arg a
  end.

Definition multiple_values_msg : string :=
  "VersionFlow.update_from_github() got multiple values for argument 'private'".

(** [VersionFlow.__exit__]: the body is [pass], so it returns [None], which
    is false: an exception of the block is not suppressed. *)
Definition VersionFlow_exit (exc : option exn) : M bool := ret false.

(** The statement [with VersionFlow() as vf: body]: a new object is
    built, [__enter__] runs, then the block; [__exit__] runs when the block
    ends, with the exception of the block if it raised, and that exception
    is raised again unless [__exit__] returned true.  [__exit__] is not
    called when [__enter__] raises. *)
Definition with_VersionFlow (w : world) (block : M unit)
  : result unit * state :=
  match VersionFlow_enter w (start VersionFlow_init) with
  | (Raise e, st) => (Raise e, st)
  | (Ok _, st) =>
      match block st with
      | (Ok _, st') =>
          match VersionFlow_exit None st' with
          | (Ok _, st'') => (Ok tt, st'')
          | (Raise e, st'') => (Raise e, st'')
          end
      | (Raise e, st') =>
          match VersionFlow_exit (Some e) st' with
          | (Ok suppress, st'') =>
              if suppress then (Ok tt, st'') else (Raise e, st'')
          | (Raise e', st'') => (Raise e', st'')
          end
      end
  end.

(* ================================================================== *)
(** * Properties of the Python built-ins *)
(* ================================================================== *)

Module PyFacts.
Import Py.

Lemma digit_cases (d : Z) :
  0 <= d < 10 ->
  d = 0 \/ d = 1 \/ d = 2 \/ d = 3 \/ d = 4 \/
  d = 5 \/ d = 6 \/ d = 7 \/ d = 8 \/ d = 9.
Proof. lia. Qed.

Ltac each_digit d H :=
  destruct (digit_cases d H) as [-> | [-> | [-> | [-> | [-> |
    [-> | [-> | [-> | [-> | ->]]]]]]]]].

Lemma digit_val_digit_char (d : Z) :
  0 <= d < 10 -> digit_val (digit_char d) = Some d.
Proof. intros H; each_digit d H; reflexivity. Qed.

Lemma is_space_digit_char (d : Z) :
  0 <= d < 10 -> is_space (digit_char d) = false.
Proof. intros H; each_digit d H; reflexivity. Qed.

Lemma digit_char_plain (d : Z) :
  0 <= d < 10 ->
  Ascii.eqb (digit_char d) "+" = false /\
  Ascii.eqb (digit_char d) "-" = false /\
  Ascii.eqb (digit_char d) "." = false.
Proof. intros H; each_digit d H; repeat split; reflexivity. Qed.

Lemma mod10_digit (n : Z) : 0 <= n mod 10 < 10.
Proof. apply Z.mod_pos_bound; lia. Qed.

(** Reading back the digits that [str_digits] wrote: they shift the
    accumulator by their number and add [n]. *)
Lemma scan_str_digits (fuel : nat) :
  forall n rest,
    0 <= n < 10 ^ Z.of_nat (S fuel) ->
    exists k, 0 <= k /\
      forall a, scan_digits (str_digits fuel n rest) false a
                = scan_digits rest false (a * 10 ^ k + n).
Proof.
  induction fuel as [|f IH]; intros n rest Hn.
  - exists 1. split; [lia|]. intros a. cbn [str_digits scan_digits].
    change (10 ^ Z.of_nat 1) with 10 in Hn.
    rewrite Z.mod_small by lia.
    rewrite digit_val_digit_char by lia.
    f_equal. lia.
  - cbn [str_digits].
    destruct (n / 10 =? 0) eqn:Hq.
    + apply Z.eqb_eq in Hq.
      assert (Hlt : n < 10).
      { pose proof (Z.div_mod n 10 ltac:(lia)).
        pose proof (mod10_digit n). lia. }
      exists 1. split; [lia|]. intros a. cbn [scan_digits].
      rewrite Z.mod_small by lia.
      rewrite digit_val_digit_char by lia.
      f_equal. lia.
    + apply Z.eqb_neq in Hq.
      assert (Hdiv : 0 <= n / 10 < 10 ^ Z.of_nat (S f)).
      { split; [apply Z.div_pos; lia|].
        apply Z.div_lt_upper_bound; [lia|].
        replace (Z.of_nat (S (S f))) with (Z.succ (Z.of_nat (S f))) in Hn by lia.
        rewrite Z.pow_succ_r in Hn by lia. lia. }
      destruct (IH (n / 10) (String (digit_char (n mod 10)) rest) Hdiv)
        as (k & Hk & Hscan).
      exists (Z.succ k). split; [lia|]. intros a.
      rewrite Hscan. cbn [scan_digits].
      rewrite digit_val_digit_char by apply mod10_digit.
      f_equal. rewrite Z.pow_succ_r by lia.
      pose proof (Z.div_mod n 10 ltac:(lia)). lia.
Qed.

(** The first character [str_digits] writes is a digit. *)
Lemma str_digits_head (fuel : nat) :
  forall n rest, exists d r,
    0 <= d < 10 /\ str_digits fuel n rest = String (digit_char d) r.
Proof.
  induction fuel as [|f IH]; intros n rest; cbn [str_digits].
  - exists (n mod 10), rest. split; [apply mod10_digit | reflexivity].
  - destruct (n / 10 =? 0).
    + exists (n mod 10), rest. split; [apply mod10_digit | reflexivity].
    + apply IH.
Qed.

Lemma str_digits_chars (p : ascii -> bool) (fuel : nat) :
  (forall d, 0 <= d < 10 -> p (digit_char d) = true) ->
  forall n rest,
    all_chars p rest = true -> all_chars p (str_digits fuel n rest) = true.
Proof.
  intros Hp. induction fuel as [|f IH]; intros n rest Hrest;
    cbn [str_digits].
  - cbn [all_chars]. rewrite Hp by apply mod10_digit. exact Hrest.
  - destruct (n / 10 =? 0).
    + cbn [all_chars]. rewrite Hp by apply mod10_digit. exact Hrest.
    + apply IH. cbn [all_chars]. rewrite Hp by apply mod10_digit.
      exact Hrest.
Qed.

(** [log2 n] further digits are enough for [n]. *)
Lemma fuel_enough (n : Z) :
  0 <= n -> 0 <= n < 10 ^ Z.of_nat (S (Z.to_nat (Z.log2 n))).
Proof.
  intros Hn. split; [exact Hn|].
  pose proof (Z.log2_nonneg n) as Hl.
  replace (Z.of_nat (S (Z.to_nat (Z.log2 n)))) with (Z.succ (Z.log2 n)) by lia.
  destruct (Z.eq_dec n 0) as [-> | Hz].
  - cbn. lia.
  - destruct (Z.log2_spec n ltac:(lia)) as [_ Hup].
    eapply Z.lt_le_trans; [exact Hup|].
    apply Z.pow_le_mono_l. lia.
Qed.

Lemma scan_literal_str_nonneg (n : Z) :
  0 <= n -> scan_literal (str_nonneg n) = Some (n, "").
Proof.
  intros Hn. unfold str_nonneg, scan_literal.
  destruct (str_digits_head (Z.to_nat (Z.log2 n)) n "") as (d & r & Hd & Heq).
  destruct (scan_str_digits _ n "" (fuel_enough n Hn)) as (k & Hk & Hscan).
  rewrite Heq in *. rewrite digit_val_digit_char by exact Hd.
  rewrite Hscan. cbn [scan_digits].
  replace (0 * 10 ^ k + n) with n by lia. reflexivity.
Qed.

(** [int(str(z)) == z] *)
Lemma int_opt_str (z : Z) : int_opt (str z) = Some z.
Proof.
  unfold str, int_opt. destruct (z <? 0) eqn:Hneg.
  - apply Z.ltb_lt in Hneg.
    cbn [skip_space]. change (is_space "-") with false. cbv iota.
    change (Ascii.eqb "-" "+") with false.
    change (Ascii.eqb "-" "-") with true. cbv iota.
    rewrite scan_literal_str_nonneg by lia. cbn [skip_space].
    rewrite Z.opp_involutive. reflexivity.
  - apply Z.ltb_ge in Hneg.
    pose proof (scan_literal_str_nonneg z Hneg) as Hscan.
    unfold str_nonneg in *.
    destruct (str_digits_head (Z.to_nat (Z.log2 z)) z "") as (d & r & Hd & Heq).
    rewrite Heq in *. cbn [skip_space].
    rewrite is_space_digit_char by exact Hd.
    destruct (digit_char_plain d Hd) as (Hplus & Hminus & _).
    rewrite Hplus, Hminus. rewrite Hscan. reflexivity.
Qed.

Lemma int_str (z : Z) : int (str z) = Ok z.
Proof. unfold int. rewrite int_opt_str. reflexivity. Qed.

(** [str] writes digits and at most a minus sign. *)
Lemma str_chars (p : ascii -> bool) (z : Z) :
  (forall d, 0 <= d < 10 -> p (digit_char d) = true) ->
  p "-"%char = true ->
  all_chars p (str z) = true.
Proof.
  intros Hd Hm. unfold str, str_nonneg. destruct (z <? 0).
  - cbn [all_chars]. rewrite Hm. apply str_digits_chars; auto.
  - apply str_digits_chars; auto.
Qed.

Lemma str_no_dot (z : Z) : all_chars (not_char ".") (str z) = true.
Proof.
  apply str_chars; [|reflexivity].
  intros d Hd. unfold not_char.
  destruct (digit_char_plain d Hd) as (_ & _ & ->). reflexivity.
Qed.

Lemma str_not_v (z : Z) : startswith (str z) "v" = false.
Proof.
  assert (H : all_chars (not_char "v") (str z) = true).
  { apply str_chars; [|reflexivity].
    intros d Hd; each_digit d Hd; reflexivity. }
  unfold startswith. destruct (str z) as [|c r]; [reflexivity|].
  cbn [all_chars] in H. apply andb_prop in H as [Hc _].
  cbn [prefix]. destruct (ascii_dec "v" c) as [<- | _].
  - discriminate Hc.
  - reflexivity.
Qed.

Lemma startswith_v (s : string) : startswith (String "v" s) "v" = true.
Proof.
  unfold startswith. cbn [prefix].
  destruct (ascii_dec "v" "v") as [_ | N]; [|congruence].
  destruct s; reflexivity.
Qed.

(** Splitting where the separator stands. *)
Lemma split_plain (sep : ascii) (a : string) :
  all_chars (not_char sep) a = true -> split sep a = [a].
Proof.
  induction a as [|c r IH]; intros H; [reflexivity|].
  cbn [all_chars] in H. apply andb_prop in H as [Hc Hr].
  unfold not_char in Hc. apply negb_true_iff in Hc.
  cbn [split]. rewrite Hc, (IH Hr). reflexivity.
Qed.

Lemma split_app (sep : ascii) (a b : string) :
  all_chars (not_char sep) a = true ->
  split sep (a ++ String sep b) = a :: split sep b.
Proof.
  induction a as [|c r IH]; intros H.
  - cbn [append split]. rewrite Ascii.eqb_refl. reflexivity.
  - cbn [all_chars] in H. apply andb_prop in H as [Hc Hr].
    unfold not_char in Hc. apply negb_true_iff in Hc.
    cbn [append split]. rewrite Hc, (IH Hr). reflexivity.
Qed.

Lemma tuple_lt_irrefl (t : Z * Z * Z) : tuple_lt t t = false.
Proof.
  destruct t as [[a b] c]. unfold tuple_lt.
  rewrite !Z.ltb_irrefl, !Z.eqb_refl. reflexivity.
Qed.

End PyFacts.

(* ================================================================== *)
(** * Properties of [Version] *)
(* ================================================================== *)

Lemma split_three (a b c : Z) :
  Py.split "." (Py.str a ++ "." ++ Py.str b ++ "." ++ Py.str c)
  = [Py.str a; Py.str b; Py.str c].
Proof.
  change ("." ++ Py.str b ++ "." ++ Py.str c)
    with (String "." (Py.str b ++ String "." (Py.str c))).
  rewrite PyFacts.split_app by apply PyFacts.str_no_dot.
  rewrite PyFacts.split_app by apply PyFacts.str_no_dot.
  rewrite PyFacts.split_plain by apply PyFacts.str_no_dot.
  reflexivity.
Qed.

(** Parsing the canonical string gives back the triple. *)
Lemma parse_format_version (t : Z * Z * Z) :
  parse (format_version t) = Ok t.
Proof.
  destruct t as [[a b] c]. unfold parse, format_version.
  change ("v" ++ Py.str a ++ "." ++ Py.str b ++ "." ++ Py.str c)
    with (String "v" (Py.str a ++ "." ++ Py.str b ++ "." ++ Py.str c)).
  rewrite PyFacts.startswith_v. cbn [Py.slice_from_1].
  rewrite split_three. cbn [nth List.length Nat.ltb Nat.leb].
  rewrite !PyFacts.int_str. reflexivity.
Qed.

Lemma format_version_inj (t u : Z * Z * Z) :
  format_version t = format_version u -> t = u.
Proof.
  intros H.
  pose proof (parse_format_version t) as Ht.
  rewrite H, parse_format_version in Ht. congruence.
Qed.

(** What [is_greater_than] computes on an object built by the
    constructor: whether the other triple is not above its own. *)
Lemma is_greater_than_spec (a b : string) (ta tb : Z * Z * Z) :
  parse a = Ok ta ->
  parse b = Ok tb ->
  exists v, Version_init a = Ok v /\
            version v = format_version ta /\
            is_greater_than v b = Ok (negb (Py.tuple_lt ta tb)).
Proof.
  intros Ha Hb. unfold Version_init. rewrite Ha. cbn [rbind].
  eexists. split; [reflexivity|]. split; [reflexivity|].
  unfold is_greater_than. cbn [version].
  rewrite parse_format_version, Hb. cbn [rbind Py.max_from].
  destruct (Py.tuple_lt ta tb) eqn:Hlt; cbn [negb]; f_equal.
  - apply String.eqb_neq. intros Heq. apply format_version_inj in Heq.
    subst tb. rewrite PyFacts.tuple_lt_irrefl in Hlt. discriminate.
  - apply String.eqb_refl.
Qed.

Lemma tuple_lt_false_iff (ta tb : Z * Z * Z) :
  Py.tuple_lt ta tb = false <-> triple_ge ta tb.
Proof.
  destruct ta as [[a0 a1] a2], tb as [[b0 b1] b2].
  unfold Py.tuple_lt, triple_ge, triple_gt. split.
  - intros H.
    apply orb_false_iff in H as [H0 H]. apply Z.ltb_ge in H0.
    destruct (Z.eqb_spec a0 b0) as [E0 | N0]; [|left; lia].
    cbn [andb] in H. apply orb_false_iff in H as [H1 H].
    apply Z.ltb_ge in H1.
    destruct (Z.eqb_spec a1 b1) as [E1 | N1]; [|left; lia].
    cbn [andb] in H. apply Z.ltb_ge in H.
    destruct (Z.eq_dec a2 b2) as [E2 | N2].
    + right. congruence.
    + left. lia.
  - intros [H | H].
    + apply orb_false_iff. split; [apply Z.ltb_ge; lia|].
      destruct (Z.eqb_spec a0 b0) as [E0 | N0]; [|reflexivity].
      cbn [andb]. apply orb_false_iff. split; [apply Z.ltb_ge; lia|].
      destruct (Z.eqb_spec a1 b1) as [E1 | N1]; [|reflexivity].
      cbn [andb]. apply Z.ltb_ge. lia.
    + inversion H; subst.
      rewrite !Z.ltb_irrefl, !Z.eqb_refl. reflexivity.
Qed.

Lemma tuple_lt_true_iff (ta tb : Z * Z * Z) :
  Py.tuple_lt ta tb = true <-> triple_gt tb ta.
Proof.
  destruct ta as [[a0 a1] a2], tb as [[b0 b1] b2].
  unfold Py.tuple_lt, triple_gt. split.
  - intros H. apply orb_true_iff in H as [H | H].
    + apply Z.ltb_lt in H. left. lia.
    + apply andb_true_iff in H as [E0 H]. apply Z.eqb_eq in E0.
      right. split; [lia|].
      apply orb_true_iff in H as [H | H].
      * apply Z.ltb_lt in H. left. lia.
      * apply andb_true_iff in H as [E1 H].
        apply Z.eqb_eq in E1. apply Z.ltb_lt in H. right. lia.
  - intros [H | [E0 [H | [E1 H]]]].
    + apply orb_true_iff. left. apply Z.ltb_lt. lia.
    + apply orb_true_iff. right. apply andb_true_iff.
      split; [apply Z.eqb_eq; lia|].
      apply orb_true_iff. left. apply Z.ltb_lt. lia.
    + apply orb_true_iff. right. apply andb_true_iff.
      split; [apply Z.eqb_eq; lia|].
      apply orb_true_iff. right. apply andb_true_iff.
      split; [apply Z.eqb_eq; lia | apply Z.ltb_lt; lia].
Qed.

(** On two valid version strings [is_greater_than] answers whether the
    first triple is greater than or equal to the second. *)
Lemma is_greater_than_iff_ge (a b : string) (ta tb : Z * Z * Z) :
  parse a = Ok ta ->
  parse b = Ok tb ->
  exists v, Version_init a = Ok v /\
            (is_greater_than v b = Ok true <-> triple_ge ta tb).
Proof.
  intros Ha Hb.
  destruct (is_greater_than_spec a b ta tb Ha Hb) as (v & Hv & _ & Hgt).
  exists v. split; [exact Hv|]. rewrite Hgt.
  rewrite <- tuple_lt_false_iff.
  destruct (Py.tuple_lt ta tb); cbn [negb]; split; congruence.
Qed.

Lemma int_cases (s : string) :
  (exists z, Py.int_opt s = Some z /\ Py.int s = Ok z) \/
  (Py.int_opt s = None /\ Py.int s = Raise (ValueError s)).
Proof.
  unfold Py.int. destruct (Py.int_opt s) as [z|].
  - left. exists z. split; reflexivity.
  - right. split; reflexivity.
Qed.

Lemma nth_error_read {A : Type} (l : list A) (i : nat) (x d : A) :
  nth_error l i = Some x -> nth i l d = x /\ (i <? List.length l)%nat = true.
Proof.
  intros H. split.
  - apply nth_error_nth. exact H.
  - apply Nat.ltb_lt. apply nth_error_Some. congruence.
Qed.

Lemma split_nonempty (sep : ascii) (s : string) :
  exists h t, Py.split sep s = h :: t.
Proof.
  destruct s as [|c r]; cbn [Py.split]; [eauto|].
  destruct (Ascii.eqb c sep); [eauto|].
  destruct (Py.split sep r); eauto.
Qed.

(** C1 (the code at the failing input): on two equal versions
    [is_greater_than] answers [True], where the claim wants [False].
    [Version("1.0.0")] holds ["v1.0.0"], and comparing it with ["1.0.0"]
    gives [True]. *)
Theorem is_greater_than_equal_versions :
  Version_init "1.0.0" = Ok {| version := "v1.0.0" |} /\
  parse "v1.0.0" = parse "1.0.0" /\
  is_greater_than {| version := "v1.0.0" |} "1.0.0" = Ok true.
Proof. repeat split; vm_compute; reflexivity. Qed.

(** C6 (as stated, refuted): ["1.2.3.abc"] has the non-numeric segment
    ["abc"], and [parse] accepts it, with the triple [(1, 2, 3)]. *)
Lemma parse_ignores_fourth_segment :
  segments "1.2.3.abc" = ["1"; "2"; "3"; "abc"] /\
  Py.int_opt "abc" = None /\
  parse "1.2.3.abc" = Ok (1, 2, 3).
Proof. repeat split; vm_compute; reflexivity. Qed.

(** C6 (amended): when one of the first three dot-separated segments of
    the input (after one leading [v] is removed) is not an integer
    literal, [parse] fails, with the [ValueError] of [int] on a literal
    that [int] rejects. *)
Theorem parse_rejects_non_numeric_segment (s seg : string) (i : nat) :
  (i < 3)%nat ->
  nth_error (segments s) i = Some seg ->
  Py.int_opt seg = None ->
  exists literal,
    Py.int_opt literal = None /\ parse s = Raise (ValueError literal).
Proof.
  intros Hi Hnth Hbad. unfold parse. fold (segments s).
  set (parts := segments s) in *.
  destruct (int_cases (nth 0 parts "")) as [(z0 & _ & E0) | (N0 & E0)];
    rewrite E0; cbn [rbind]; [|eauto].
  destruct i as [|i].
  { apply nth_error_read with (d := "") in Hnth as [Hseg _].
    rewrite Hseg in E0. unfold Py.int in E0. rewrite Hbad in E0.
    discriminate. }
  destruct (1 <? List.length parts)%nat eqn:L1.
  - destruct (int_cases (nth 1 parts "")) as [(z1 & _ & E1) | (N1 & E1)];
      rewrite E1; cbn [rbind]; [|eauto].
    destruct i as [|i].
    { apply nth_error_read with (d := "") in Hnth as [Hseg _].
      rewrite Hseg in E1. unfold Py.int in E1. rewrite Hbad in E1.
      discriminate. }
    destruct i as [|i]; [|lia].
    apply nth_error_read with (d := "") in Hnth as [Hseg Hlen].
    rewrite Hlen, Hseg. unfold Py.int. rewrite Hbad. cbn [rbind]. eauto.
  - destruct i as [|i].
    + apply nth_error_read with (d := "") in Hnth as [_ Hlen]. congruence.
    + apply nth_error_read with (d := "") in Hnth as [_ Hlen].
      apply Nat.ltb_lt in Hlen. apply Nat.ltb_ge in L1. lia.
Qed.

Lemma parse_rejects_non_numeric_segment_witness :
  ((0 < 3)%nat /\ nth_error (segments "abc") 0 = Some "abc" /\
   Py.int_opt "abc" = None) /\
  exists literal,
    Py.int_opt literal = None /\ parse "abc" = Raise (ValueError literal).
Proof.
  split.
  - split; [lia | split; reflexivity].
  - apply (parse_rejects_non_numeric_segment "abc" "abc" 0);
      [lia | reflexivity | reflexivity].
Defined.

(** C9: [parse] removes one leading [v] and fills a missing minor and
    patch with 0: the three examples of the specification, the same for
    every integer in place of the digits, and a second [v] is not
    removed. *)
Theorem parse_strips_v_and_defaults :
  (parse "v1.2.3" = Ok (1, 2, 3) /\
   parse "2" = Ok (2, 0, 0) /\
   parse "v3.4" = Ok (3, 4, 0)) /\
  (forall a : Z,
      parse (Py.str a) = Ok (a, 0, 0) /\
      parse ("v" ++ Py.str a) = Ok (a, 0, 0)) /\
  (forall a b : Z,
      parse (Py.str a ++ "." ++ Py.str b) = Ok (a, b, 0) /\
      parse ("v" ++ Py.str a ++ "." ++ Py.str b) = Ok (a, b, 0)) /\
  (forall a b c : Z,
      parse (Py.str a ++ "." ++ Py.str b ++ "." ++ Py.str c) = Ok (a, b, c) /\
      parse ("v" ++ Py.str a ++ "." ++ Py.str b ++ "." ++ Py.str c)
      = Ok (a, b, c)) /\
  (forall s : string,
      exists literal, parse ("vv" ++ s) = Raise (ValueError literal)).
Proof.
  assert (Hhead : forall a rest,
             Py.startswith (Py.str a ++ rest) "v" = false).
  { intros a rest. pose proof (PyFacts.str_not_v a) as H.
    unfold Py.startswith in *.
    destruct (Py.str a) as [|c r] eqn:E.
    - pose proof (PyFacts.int_opt_str a) as Hi. rewrite E in Hi.
      discriminate Hi.
    - cbn [append prefix] in *. destruct (ascii_dec "v" c); [|reflexivity].
      destruct r; discriminate H. }
  assert (H1 : forall a, parse (Py.str a) = Ok (a, 0, 0)).
  { intros a. unfold parse. rewrite PyFacts.str_not_v.
    rewrite PyFacts.split_plain by apply PyFacts.str_no_dot.
    cbn [nth List.length Nat.ltb Nat.leb]. rewrite PyFacts.int_str.
    reflexivity. }
  assert (S2 : forall a b,
             Py.split "." (Py.str a ++ "." ++ Py.str b)
             = [Py.str a; Py.str b]).
  { intros a b.
    change ("." ++ Py.str b) with (String "." (Py.str b)).
    rewrite PyFacts.split_app by apply PyFacts.str_no_dot.
    rewrite PyFacts.split_plain by apply PyFacts.str_no_dot.
    reflexivity. }
  assert (H2 : forall a b,
             parse (Py.str a ++ "." ++ Py.str b) = Ok (a, b, 0)).
  { intros a b. unfold parse. rewrite Hhead, S2.
    cbn [nth List.length Nat.ltb Nat.leb]. rewrite !PyFacts.int_str.
    reflexivity. }
  assert (H3 : forall a b c,
             parse (Py.str a ++ "." ++ Py.str b ++ "." ++ Py.str c)
             = Ok (a, b, c)).
  { intros a b c. unfold parse. rewrite Hhead, split_three.
    cbn [nth List.length Nat.ltb Nat.leb]. rewrite !PyFacts.int_str.
    reflexivity. }
  assert (Hv : forall s, Py.startswith s "v" = false ->
                         parse ("v" ++ s) = parse s).
  { intros s Hs. unfold parse at 1.
    change ("v" ++ s) with (String "v" s).
    rewrite PyFacts.startswith_v. cbn [Py.slice_from_1].
    unfold parse. rewrite Hs. reflexivity. }
  split; [repeat split; vm_compute; reflexivity|].
  split; [intros a; split; [apply H1 | rewrite Hv; [apply H1 | apply PyFacts.str_not_v]]|].
  split; [intros a b; split; [apply H2 | rewrite Hv; [apply H2 | apply Hhead]]|].
  split; [intros a b c; split; [apply H3 | rewrite Hv; [apply H3 | apply Hhead]]|].
  intros s. unfold parse.
  change ("vv" ++ s) with (String "v" (String "v" s)).
  rewrite PyFacts.startswith_v. cbn [Py.slice_from_1 Py.split].
  change (Ascii.eqb "v" ".") with false. cbv iota.
  destruct (split_nonempty "." s) as (h & t & ->).
  cbn [nth]. exists (String "v" h). reflexivity.
Qed.

(** C10: for every string [s] that [parse] accepts, with triple [t], the
    constructor stores the canonical string of [t]; parsing the stored
    string gives [t] again, and constructing from the stored string gives
    the same object. *)
Theorem Version_init_roundtrip (s : string) (t : Z * Z * Z) :
  parse s = Ok t ->
  exists v,
    Version_init s = Ok v /\
    version v = format_version t /\
    parse (version v) = Ok t /\
    Version_init (version v) = Ok v.
Proof.
  intros Hs. unfold Version_init. rewrite Hs. cbn [rbind].
  eexists. split; [reflexivity|]. cbn [version].
  split; [reflexivity|].
  rewrite parse_format_version. split; reflexivity.
Qed.

Lemma Version_init_roundtrip_witness :
  parse " 01_0.+2" = Ok (10, 2, 0) /\
  exists v,
    Version_init " 01_0.+2" = Ok v /\
    version v = format_version (10, 2, 0) /\
    parse (version v) = Ok (10, 2, 0) /\
    Version_init (version v) = Ok v.
Proof.
  split.
  - reflexivity.
  - apply (Version_init_roundtrip " 01_0.+2" (10, 2, 0)). reflexivity.
Defined.

(* ================================================================== *)
(** * Properties of [VersionFlow] *)
(* ================================================================== *)

Lemma requests_sent_app (l l' : list event) :
  requests_sent (l ++ l') = (requests_sent l + requests_sent l')%nat.
Proof.
  unfold requests_sent. rewrite filter_app, length_app. reflexivity.
Qed.

Lemma requests_sent_advisory (l : list event) (private : bool)
  (token : option string) :
  requests_sent (l ++ advisory private token) = requests_sent l.
Proof.
  rewrite requests_sent_app.
  destruct token, private; cbn; lia.
Qed.

Lemma requests_sent_directory_advisory (l : list event)
  (dd : option string) :
  requests_sent (l ++ directory_advisory dd) = requests_sent l.
Proof.
  rewrite requests_sent_app. destruct dd; cbn; lia.
Qed.

(** The validation of the credential parameters, evaluated. *)
Lemma define_headers_eval (private : bool) (token : option string)
  (st : state) :
  define_headers private token st =
  if credentials_ok private token
  then (Ok (option_map auth_headers token),
        {| self := self st; log := log st ++ advisory private token |})
  else (Raise (GitHubTokenErr token_missing_msg), st).
Proof.
  destruct st as [vf l].
  destruct token as [t|], private; cbn; rewrite ?app_nil_r; reflexivity.
Qed.

(** The request for the release, evaluated. *)
Lemma get_release_eval (w : world) (api : string) (hdrs : option headers)
  (st : state) :
  let req := {| req_url := api; req_headers := hdrs; req_timeout := None |} in
  let st' := {| self := self st; log := log st ++ [Get req] |} in
  get_release w api hdrs st =
  match net w (requests_sent (log st)) req with
  | Responded resp =>
      match raise_for_status resp with
      | Some e => (Raise (ServerResponseErr ("Failed to connect: " ++ e)), st')
      | None => (Ok resp, st')
      end
  | Failed e => (Raise (RequestsError e), st')
  end.
Proof.
  cbv zeta. unfold get_release, bind, requests_get, raise, ret.
  destruct (net w _ _) as [resp | e]; [|reflexivity].
  destruct (raise_for_status resp); reflexivity.
Qed.




(** The update check up to the comparison: with valid credentials, a
    response that [raise_for_status] lets through, a JSON body, a tag under
    ['tag_name'] and a comparison that answers [greater], the call
    continues from the state [st1] with what follows the comparison. *)
Lemma check_reaches_comparison (w : world) (st : state)
  (cur u r rel : string) (private : bool) (token : option string)
  (upd : bool) (files : option (list string)) (dd : option string)
  (um : option callable) (args : list pyarg)
  (resp : response) (j tag : json) (v : Version) (greater : bool) :
  credentials_ok private token = true ->
  net w (requests_sent (log st)) (release_request u r rel token)
    = Responded resp ->
  raise_for_status resp = None ->
  body resp = Some j ->
  subscript j "tag_name" = Ok tag ->
  Version_of_json tag = Ok v ->
  is_greater_than v cur = Ok greater ->
  let st1 := {| self := self st;
                log := log st ++ advisory private token
                       ++ [Get (release_request u r rel token)] |} in
  check_for_updates_in_github w cur u r rel private token upd files dd
    um args st
  = if greater then
      (set_update_available true ;;;
       if negb upd then ret (Some tag)
       else
         match files with
         | None => raise (FilesNotSetErr no_files_msg)
         | Some files =>
             download_directory <-
               match dd with
               | None =>
                   warn DownloadDirectoryWarning no_directory_msg ;;;
                   ret (cwd w)
               | Some d => ret d
               end ;;
             call_update_from_github w u r files download_directory
               private token um args ;;;
             ret None
         end)%vf st1
    else (Ok None, st1).
Proof.
  intros Hcred Hnet Hstatus Hbody Hsub Hver Hgt. cbv zeta.
  unfold check_for_updates_in_github.
  unfold bind at 1. rewrite define_headers_eval, Hcred.
  unfold bind at 1. rewrite get_release_eval. cbn [self log].
  rewrite requests_sent_advisory.
  fold (release_request u r rel token). rewrite Hnet, Hstatus.
  unfold bind at 1. unfold response_json. rewrite Hbody. unfold ret at 1.
  unfold bind at 1. unfold lift at 1. rewrite Hsub.
  unfold bind at 1. unfold lift at 1. rewrite Hver.
  unfold bind at 1. unfold lift at 1. rewrite Hgt.
  rewrite <- app_assoc.
  destruct greater; reflexivity.
Qed.

(** C2 (the code at the failing input): with [update=True], a newer
    release and the empty list of files, the call does not fail with
    [FilesNotSetErr], although there are no files to download: the guard
    only tests [files_to_download == None].  It goes on to the download
    step, whose request for the release is the second [Get] of the log,
    and returns [None]. *)
Lemma empty_file_list_is_accepted :
  check_for_updates_in_github
    (always (Responded (release_with_tag "v1.1.0")))
    "1.0.0" "u" "r" "latest" false None true (Some []) (Some "/tmp")
    None [] (start VersionFlow_init)
  = (Ok None,
     {| self := {| internet_status := false; update_available := true |};
        log := [Get (release_request "u" "r" "latest" None);
                Get (release_request "u" "r" "latest" None)] |}).
Proof. vm_compute. reflexivity. Qed.

(** X22: in a call with [update=True] that finds a newer release, an
    absent file list ([files_to_download = None]) makes the call fail
    with [FilesNotSetErr]; [update_available] is set, and the request for
    the release is the last effect of the call, so no download step was
    started. *)
Theorem missing_file_list_raises (w : world) (st : state)
  (cur u r rel : string) (private : bool) (token : option string)
  (dd : option string) (um : option callable) (args : list pyarg)
  (resp : response) (j tag : json) (v : Version) :
  credentials_ok private token = true ->
  net w (requests_sent (log st)) (release_request u r rel token)
    = Responded resp ->
  raise_for_status resp = None ->
  body resp = Some j ->
  subscript j "tag_name" = Ok tag ->
  Version_of_json tag = Ok v ->
  is_greater_than v cur = Ok true ->
  check_for_updates_in_github w cur u r rel private token true None dd
    um args st
  = (Raise (FilesNotSetErr no_files_msg),
     {| self := {| internet_status := internet_status (self st);
                   update_available := true |};
        log := log st ++ advisory private token
               ++ [Get (release_request u r rel token)] |}).
Proof.
  intros Hcred Hnet Hstatus Hbody Hsub Hver Hgt.
  rewrite (check_reaches_comparison w st cur u r rel private token true
             None dd um args resp j tag v true) by assumption.
  reflexivity.
Qed.

Lemma missing_file_list_raises_witness :
  check_for_updates_in_github
    (always (Responded (release_with_tag "v1.1.0")))
    "1.0.0" "u" "r" "latest" false None true None (Some "/tmp")
    None [] (start VersionFlow_init)
  = (Raise (FilesNotSetErr no_files_msg),
     {| self := {| internet_status := false; update_available := true |};
        log := [Get (release_request "u" "r" "latest" None)] |}).
Proof.
  apply (missing_file_list_raises
           (always (Responded (release_with_tag "v1.1.0")))
           (start VersionFlow_init) "1.0.0" "u" "r" "latest" false None
           (Some "/tmp") None [] (release_with_tag "v1.1.0")
           (JDict [("name", JStr "release"); ("tag_name", JStr "v1.1.0")])
           (JStr "v1.1.0") {| version := "v1.1.0" |});
    reflexivity.
Defined.

(** The download step, evaluated: the advisories, then at most the request
    for the release. *)
Lemma update_from_github_eval (w : world) (st : state) (u r : string)
  (files : list string) (dd : option string) (tv : pyarg)
  (private : bool) (token : option string) (um : option callable)
  (args : list pyarg) :
  let req := release_request u r (format_arg tv) token in
  let st1 := {| self := self st;
                log := log st ++ directory_advisory dd
                       ++ advisory private token ++ [Get req] |} in
  update_from_github w u r files dd tv private token um args st =
  if credentials_ok private token then
    match net w (requests_sent (log st)) req with
    | Responded resp =>
        match raise_for_status resp with
        | Some e =>
            (Raise (ServerResponseErr ("Failed to connect: " ++ e)), st1)
        | None => (Ok tt, st1)
        end
    | Failed e => (Raise (RequestsError e), st1)
    end
  else (Raise (GitHubTokenErr token_missing_msg),
        {| self := self st; log := log st ++ directory_advisory dd |}).
Proof.
  cbv zeta. unfold update_from_github.
  unfold bind at 1.
  assert (Hdir :
    match dd with
    | Some d => ret d
    | None => (warn DownloadDirectoryWarning no_directory_msg ;;;
               ret (cwd w))%vf
    end st
    = (Ok match dd with Some d => d | None => cwd w end,
       {| self := self st; log := log st ++ directory_advisory dd |})).
  { destruct st as [vf l]. destruct dd; cbn; rewrite ?app_nil_r; reflexivity. }
  rewrite Hdir. unfold bind at 1. rewrite define_headers_eval.
  cbn [self log].
  destruct (credentials_ok private token); [|reflexivity].
  unfold bind at 1. rewrite get_release_eval. cbn [self log].
  rewrite requests_sent_advisory, requests_sent_directory_advisory.
  fold (release_request u r (format_arg tv) token).
  rewrite <- !app_assoc.
  destruct (net w _ _) as [resp | e]; [|reflexivity].
  destruct (raise_for_status resp); reflexivity.
Qed.

(** C3 (the code): [update_from_github] ends after the request for the
    release.  Its outcome and its effects are the same whatever the list
    of files, the hook and the hook's arguments are; its effects are the
    two advisories and at most that one request; and in a run with the
    file ["app.bin"], the directory ["/tmp"] and the hook ["restart"],
    which succeeds, the request for the release is the only effect: no
    file is retrieved or saved and the hook is not invoked. *)
Theorem update_from_github_downloads_nothing :
  (forall w st u r dd tv private token files files' um um' args args',
      update_from_github w u r files dd tv private token um args st
      = update_from_github w u r files' dd tv private token um' args' st) /\
  (forall w st u r dd tv private token files um args,
      internet_status
        (self (snd (update_from_github w u r files dd tv private token um
                      args st))) = internet_status (self st) /\
      exists sent,
        (sent = [] \/
         sent = [Get (release_request u r (format_arg tv) token)]) /\
        log (snd (update_from_github w u r files dd tv private token um
                    args st))
        = (log st ++ directory_advisory dd ++ advisory private token
           ++ sent)%list) /\
  update_from_github (always (Responded (release_with_tag "v1.1.0")))
    "u" "r" ["app.bin"] (Some "/tmp") (ArgStr "latest") false None
    (Some "restart") [ArgStr "now"] (start VersionFlow_init)
  = (Ok tt,
     {| self := VersionFlow_init;
        log := [Get (release_request "u" "r" "latest" None)] |}).
Proof.
  split; [|split].
  - intros. reflexivity.
  - intros. rewrite update_from_github_eval.
    destruct (credentials_ok private token) eqn:Hc.
    + assert (Hst : forall (x : result unit * state),
                 snd x = {| self := self st;
                            log := log st ++ directory_advisory dd
                                   ++ advisory private token
                                   ++ [Get (release_request u r
                                              (format_arg tv) token)] |} ->
                 internet_status (self (snd x)) = internet_status (self st) /\
                 exists sent,
                   (sent = [] \/
                    sent = [Get (release_request u r (format_arg tv) token)]) /\
                   log (snd x)
                   = (log st ++ directory_advisory dd
                      ++ advisory private token ++ sent)%list).
      { intros x ->. split; [reflexivity|]. eexists. split; [right; reflexivity|].
        reflexivity. }
      apply Hst.
      destruct (net w _ _) as [resp | e]; [|reflexivity].
      destruct (raise_for_status resp); reflexivity.
    + split; [reflexivity|]. exists []. split; [left; reflexivity|].
      cbn [snd log].
      destruct token as [t|]; [discriminate Hc|].
      cbn [advisory]. rewrite !app_nil_r. reflexivity.
  - vm_compute. reflexivity.
Qed.

(** C4 (as stated, refuted): the flag is not cleared.  On an
    orchestrator whose first check found release [v1.1.0] newer than
    [1.0.0], a second check against the current version [2.0.0], which the
    tag is below, returns [None] and leaves [update_available] true. *)
Lemma update_available_is_not_cleared :
  let w := always (Responded (release_with_tag "v1.1.0")) in
  let first :=
    check_for_updates_in_github w "1.0.0" "u" "r" "latest" false None
      false None None None [] (start VersionFlow_init) in
  let second :=
    check_for_updates_in_github w "2.0.0" "u" "r" "latest" false None
      false None None None [] (snd first) in
  fst first = Ok (Some (JStr "v1.1.0")) /\
  parse "v1.1.0" = Ok (1, 1, 0) /\
  parse "2.0.0" = Ok (2, 0, 0) /\
  fst second = Ok None /\
  update_available (self (snd second)) = true.
Proof. cbv zeta. repeat split; vm_compute; reflexivity. Qed.

(** C4 (amended): when the triple of the remote tag is strictly below the
    triple of the current version, the call returns [None] and leaves the
    orchestrator as it was: [update_available] keeps its value, so it is
    false afterwards if it was false before. *)
Theorem older_release_returns_None (w : world) (st : state)
  (cur u r rel : string) (private : bool) (token : option string)
  (upd : bool) (files : option (list string)) (dd : option string)
  (um : option callable) (args : list pyarg)
  (resp : response) (j : json) (tag : string) (t_tag t_cur : Z * Z * Z) :
  credentials_ok private token = true ->
  net w (requests_sent (log st)) (release_request u r rel token)
    = Responded resp ->
  raise_for_status resp = None ->
  body resp = Some j ->
  subscript j "tag_name" = Ok (JStr tag) ->
  parse tag = Ok t_tag ->
  parse cur = Ok t_cur ->
  triple_gt t_cur t_tag ->
  check_for_updates_in_github w cur u r rel private token upd files dd
    um args st
  = (Ok None,
     {| self := self st;
        log := log st ++ advisory private token
               ++ [Get (release_request u r rel token)] |}).
Proof.
  intros Hcred Hnet Hstatus Hbody Hsub Htag Hcur Hlt.
  destruct (is_greater_than_spec tag cur t_tag t_cur Htag Hcur)
    as (v & Hinit & _ & Hgt).
  apply tuple_lt_true_iff in Hlt. rewrite Hlt in Hgt. cbn [negb] in Hgt.
  rewrite (check_reaches_comparison w st cur u r rel private token upd
             files dd um args resp j (JStr tag) v false); auto.
Qed.

Lemma older_release_returns_None_witness :
  check_for_updates_in_github
    (always (Responded (release_with_tag "v1.9.9")))
    "2.0.0" "u" "r" "latest" false None true None None None []
    (start VersionFlow_init)
  = (Ok None,
     {| self := VersionFlow_init;
        log := [Get (release_request "u" "r" "latest" None)] |}).
Proof.
  apply (older_release_returns_None
           (always (Responded (release_with_tag "v1.9.9")))
           (start VersionFlow_init) "2.0.0" "u" "r" "latest" false None
           true None None None [] (release_with_tag "v1.9.9")
           (JDict [("name", JStr "release"); ("tag_name", JStr "v1.9.9")])
           "v1.9.9" (1, 9, 9) (2, 0, 0));
    try reflexivity.
  cbn. lia.
Defined.

(** The exceptions of the pure steps are never [GitHubTokenErr]. *)
Lemma parse_raise_kind (s : string) (e : exn) :
  parse s = Raise e -> is_GitHubTokenErr e = false.
Proof.
  unfold parse, rbind, Py.int.
  repeat match goal with
         | |- context [match Py.int_opt ?x with _ => _ end] =>
             destruct (Py.int_opt x)
         | |- context [if ?b then _ else _] => destruct b
         end;
    intros H; inversion H; reflexivity.
Qed.

Lemma Version_of_json_raise_kind (tag : json) (e : exn) :
  Version_of_json tag = Raise e -> is_GitHubTokenErr e = false.
Proof.
  destruct tag; cbn [Version_of_json]; try (intros [= <-]; reflexivity).
  unfold Version_init, rbind.
  destruct (parse s) eqn:Hp; [discriminate|].
  intros [= <-]. eapply parse_raise_kind. exact Hp.
Qed.

Lemma is_greater_than_raise_kind (v : Version) (cur : string) (e : exn) :
  is_greater_than v cur = Raise e -> is_GitHubTokenErr e = false.
Proof.
  unfold is_greater_than, rbind.
  destruct (parse (version v)) eqn:H1.
  - destruct (parse cur) eqn:H2; [discriminate|].
    intros [= <-]. eapply parse_raise_kind. exact H2.
  - intros [= <-]. eapply parse_raise_kind. exact H1.
Qed.

Lemma subscript_raise_kind (j : json) (key : string) (e : exn) :
  subscript j key = Raise e -> is_GitHubTokenErr e = false.
Proof.
  destruct j; cbn [subscript]; try (intros [= <-]; reflexivity).
  destruct (dict_get members key); [discriminate|].
  intros [= <-]. reflexivity.
Qed.

Lemma proceeds_intro (st : state) (private : bool) (token : option string)
  (before : list event) (req : request) {A : Type} (res : result A)
  (vf : VersionFlow) (tail : list event) :
  (forall e, res = Raise e -> is_GitHubTokenErr e = false) ->
  proceeds st private token before req
    (res, {| self := vf;
             log := log st ++ before ++ advisory private token
                    ++ Get req :: tail |}).
Proof.
  intros H. split; [exists tail; reflexivity | exact H].
Qed.

Lemma update_from_github_proceeds (w : world) (st : state) (u r : string)
  (files : list string) (dd : option string) (tv : pyarg)
  (private : bool) (token : option string) (um : option callable)
  (args : list pyarg) :
  credentials_ok private token = true ->
  proceeds st private token (directory_advisory dd)
    (release_request u r (format_arg tv) token)
    (update_from_github w u r files dd tv private token um args st).
Proof.
  intros Hcred. rewrite update_from_github_eval, Hcred.
  destruct (net w _ _) as [resp | e];
    [destruct (raise_for_status resp)|];
    apply proceeds_intro with (tail := []);
    intros e' [= <-]; reflexivity.
Qed.

Lemma check_for_updates_proceeds (w : world) (st : state)
  (cur u r rel : string) (private : bool) (token : option string)
  (upd : bool) (files : option (list string)) (dd : option string)
  (um : option callable) (args : list pyarg) :
  credentials_ok private token = true ->
  proceeds st private token [] (release_request u r rel token)
    (check_for_updates_in_github w cur u r rel private token upd files dd
       um args st).
Proof.
  intros Hcred.
  assert (Hleaf : forall (A : Type) (res : result A) vf tail,
             (forall e, res = Raise e -> is_GitHubTokenErr e = false) ->
             proceeds st private token [] (release_request u r rel token)
               (res, {| self := vf;
                        log := (log st ++ advisory private token
                                ++ [Get (release_request u r rel token)])
                               ++ tail |})).
  { intros A res vf tail H. rewrite <- !app_assoc.
    apply (proceeds_intro st private token [] _ res vf tail H). }
  unfold check_for_updates_in_github.
  unfold bind at 1. rewrite define_headers_eval, Hcred.
  unfold bind at 1. rewrite get_release_eval. cbn [self log].
  rewrite requests_sent_advisory.
  fold (release_request u r rel token). rewrite <- app_assoc.
  set (l1 := (log st ++ advisory private token
              ++ [Get (release_request u r rel token)])%list).
  assert (Hl1 : forall vf, {| self := vf; log := l1 |}
                           = {| self := vf; log := l1 ++ [] |}).
  { intros vf. rewrite app_nil_r. reflexivity. }
  destruct (net w _ _) as [resp | e].
  2:{ rewrite Hl1. apply Hleaf. intros e' [= <-]. reflexivity. }
  destruct (raise_for_status resp).
  { rewrite Hl1. apply Hleaf. intros e' [= <-]. reflexivity. }
  unfold bind at 1. unfold response_json.
  destruct (body resp) as [j|].
  2:{ unfold raise. rewrite Hl1. apply Hleaf. intros e' [= <-]. reflexivity. }
  unfold ret at 1. unfold bind at 1. unfold lift at 1.
  destruct (subscript j "tag_name") as [tag | e] eqn:Hsub.
  2:{ rewrite Hl1. apply Hleaf. intros e' [= <-].
      eapply subscript_raise_kind. exact Hsub. }
  unfold bind at 1. unfold lift at 1.
  destruct (Version_of_json tag) as [v | e] eqn:Hver.
  2:{ rewrite Hl1. apply Hleaf. intros e' [= <-].
      eapply Version_of_json_raise_kind. exact Hver. }
  unfold bind at 1. unfold lift at 1.
  destruct (is_greater_than v cur) as [greater | e] eqn:Hgt.
  2:{ rewrite Hl1. apply Hleaf. intros e' [= <-].
      eapply is_greater_than_raise_kind. exact Hgt. }
  destruct greater.
  2:{ unfold ret. rewrite Hl1. apply Hleaf. discriminate. }
  unfold bind at 1. unfold set_update_available at 1. cbn [self log].
  destruct upd; cbn [negb].
  2:{ unfold ret. rewrite Hl1. apply Hleaf. discriminate. }
  destruct files as [files|].
  2:{ unfold raise. rewrite Hl1. apply Hleaf. intros e' [= <-]. reflexivity. }
  unfold bind at 1.
  set (vf2 := {| internet_status := internet_status (self st);
                 update_available := true |}).
  assert (Hdir :
    match dd with
    | Some d => ret d
    | None => (warn DownloadDirectoryWarning no_directory_msg ;;;
               ret (cwd w))%vf
    end {| self := vf2; log := l1 |}
    = (Ok match dd with Some d => d | None => cwd w end,
       {| self := vf2; log := l1 ++ directory_advisory dd |})).
  { destruct dd; cbn; rewrite ?app_nil_r; reflexivity. }
  rewrite Hdir. unfold bind at 1. unfold call_update_from_github.
  destruct args as [|a [|b args]].
  - rewrite update_from_github_eval, Hcred. cbn [self log].
    destruct (net w _ _) as [resp2 | e2];
      [destruct (raise_for_status resp2)|];
      unfold ret; rewrite <- ?app_assoc; apply Hleaf;
      try discriminate; intros e' [= <-]; reflexivity.
  - rewrite update_from_github_eval, Hcred. cbn [self log].
    destruct (net w _ _) as [resp2 | e2];
      [destruct (raise_for_status resp2)|];
      unfold ret; rewrite <- ?app_assoc; apply Hleaf;
      try discriminate; intros e' [= <-]; reflexivity.
  - unfold raise. apply Hleaf. intros e' [= <-]. reflexivity.
Qed.

(** C7: the validation of [private] and the token, in both methods.
    With [private=True] and no token the call fails with
    [GitHubTokenErr] and no request has been issued.  With a token the
    request for the release carries the [Authorization] header: with
    [private=True] it is the next effect of the call; with
    [private=False] the advisory [PrivateRepositoryWarning] comes first,
    the request with the header follows, and the call does not fail with
    the credential error.  ([update_from_github] first emits the advisory
    for a missing download directory, if any.) *)
Theorem credential_validation (w : world) (st : state)
  (cur u r rel : string) (upd : bool) (files : option (list string))
  (files' : list string) (dd : option string) (tv : pyarg)
  (um : option callable) (args : list pyarg) (token : string) :
  let check := fun private tok =>
    check_for_updates_in_github w cur u r rel private tok upd files dd
      um args st in
  let update := fun private tok =>
    update_from_github w u r files' dd tv private tok um args st in
  let req := fun release =>
    {| req_url := api_url u r release;
       req_headers := Some [("Authorization", "token " ++ token);
                            ("Accept", "application/vnd.github.v3+json")];
       req_timeout := None |} in
  let warning := Warn PrivateRepositoryWarning token_unneeded_msg in
  (* private, no token *)
  (check true None = (Raise (GitHubTokenErr token_missing_msg), st) /\
   fst (update true None) = Raise (GitHubTokenErr token_missing_msg) /\
   self (snd (update true None)) = self st /\
   requests_sent (log (snd (update true None))) = requests_sent (log st)) /\
  (* private, token *)
  ((exists tail,
       log (snd (check true (Some token)))
       = (log st ++ Get (req rel) :: tail)%list) /\
   (exists tail,
       log (snd (update true (Some token)))
       = (log st ++ directory_advisory dd
          ++ Get (req (format_arg tv)) :: tail)%list)) /\
  (* not private, token *)
  ((exists tail,
       log (snd (check false (Some token)))
       = (log st ++ warning :: Get (req rel) :: tail)%list) /\
   (forall msg, fst (check false (Some token)) <> Raise (GitHubTokenErr msg)) /\
   (exists tail,
       log (snd (update false (Some token)))
       = (log st ++ directory_advisory dd
          ++ warning :: Get (req (format_arg tv)) :: tail)%list) /\
   (forall msg,
       fst (update false (Some token)) <> Raise (GitHubTokenErr msg))).
Proof.
  cbv zeta.
  pose proof (check_for_updates_proceeds w st cur u r rel true (Some token)
                upd files dd um args eq_refl) as [Hc1 _].
  pose proof (check_for_updates_proceeds w st cur u r rel false (Some token)
                upd files dd um args eq_refl) as [Hc2 Hc2'].
  pose proof (update_from_github_proceeds w st u r files' dd tv true
                (Some token) um args eq_refl) as [Hu1 _].
  pose proof (update_from_github_proceeds w st u r files' dd tv false
                (Some token) um args eq_refl) as [Hu2 Hu2'].
  split; [|split].
  - split.
    { unfold check_for_updates_in_github. unfold bind at 1.
      rewrite define_headers_eval. reflexivity. }
    rewrite update_from_github_eval. cbn [credentials_ok negb fst snd self log].
    repeat split. apply requests_sent_directory_advisory.
  - split; [exact Hc1 | exact Hu1].
  - split; [exact Hc2|]. split.
    { intros msg Hmsg. specialize (Hc2' _ Hmsg). discriminate Hc2'. }
    split; [exact Hu2|].
    intros msg Hmsg. specialize (Hu2' _ Hmsg). discriminate Hu2'.
Qed.

(** C8 (the code at the failing input): the response [304 Not Modified],
    whose status is not 200 and not a success, does not make the call fail
    with [ServerResponseErr]: [raise_for_status] lets it through and the
    call goes on to decode the body, where it fails with the
    [JSONDecodeError] of [requests], unwrapped. *)
Lemma not_modified_is_not_wrapped :
  check_for_updates_in_github
    (always (Responded
               {| status_code := 304;
                  reason := "Not Modified";
                  url := "https://api.github.com/repos/u/r/releases/latest";
                  body := None |}))
    "1.0.0" "u" "r" "latest" false None false None None None []
    (start VersionFlow_init)
  = (Raise (RequestsError Requests.JSONDecodeError),
     {| self := VersionFlow_init;
        log := [Get (release_request "u" "r" "latest" None)] |}).
Proof. vm_compute. reflexivity. Qed.

(** X23: for the response to the request for the release:
    a status code from 400 to 599 makes the call fail with
    [ServerResponseErr], whose message wraps the message of
    [raise_for_status], and this for every current version, parseable or
    not, so no version is compared; a response that [raise_for_status]
    lets through and whose JSON body has no ['tag_name'] to take makes the
    call fail with [ReleaseTagErr], again for every current version; and
    a call that returns a tag has taken it from the body and
    [is_greater_than] has answered [True] for it against the current
    version. *)
Theorem response_handling (w : world) (st : state)
  (cur u r rel : string) (private : bool) (token : option string)
  (upd : bool) (files : option (list string)) (dd : option string)
  (um : option callable) (args : list pyarg) (resp : response) :
  credentials_ok private token = true ->
  net w (requests_sent (log st)) (release_request u r rel token)
    = Responded resp ->
  let st1 := {| self := self st;
                log := log st ++ advisory private token
                       ++ [Get (release_request u r rel token)] |} in
  (400 <= status_code resp < 600 ->
   exists detail,
     raise_for_status resp = Some detail /\
     forall cur',
       check_for_updates_in_github w cur' u r rel private token upd files
         dd um args st
       = (Raise (ServerResponseErr ("Failed to connect: " ++ detail)), st1)) /\
  (forall j cause,
      raise_for_status resp = None ->
      body resp = Some j ->
      subscript j "tag_name" = Raise (ReleaseTagErr cause) ->
      forall cur',
        check_for_updates_in_github w cur' u r rel private token upd files
          dd um args st
        = (Raise (ReleaseTagErr cause), st1)) /\
  (forall tag,
      fst (check_for_updates_in_github w cur u r rel private token upd
             files dd um args st) = Ok (Some tag) ->
      raise_for_status resp = None /\
      exists j v,
        body resp = Some j /\
        subscript j "tag_name" = Ok tag /\
        Version_of_json tag = Ok v /\
        is_greater_than v cur = Ok true).
Proof.
  intros Hcred Hnet. cbv zeta.
  assert (Hfront : forall cur',
    check_for_updates_in_github w cur' u r rel private token upd files dd
      um args st
    = match raise_for_status resp with
      | Some e =>
          (Raise (ServerResponseErr ("Failed to connect: " ++ e)),
           {| self := self st;
              log := log st ++ advisory private token
                     ++ [Get (release_request u r rel token)] |})
      | None =>
          check_for_updates_in_github w cur' u r rel private token upd
            files dd um args st
      end).
  { intros cur'. destruct (raise_for_status resp) eqn:Hs; [|reflexivity].
    unfold check_for_updates_in_github.
    unfold bind at 1. rewrite define_headers_eval, Hcred.
    unfold bind at 1. rewrite get_release_eval. cbn [self log].
    rewrite requests_sent_advisory.
    fold (release_request u r rel token). rewrite Hnet, Hs.
    rewrite <- app_assoc. reflexivity. }
  split; [|split].
  - intros Hcode.
    assert (Hs : exists detail, raise_for_status resp = Some detail).
    { unfold raise_for_status.
      destruct ((400 <=? status_code resp) && (status_code resp <? 500))
        eqn:H4; [eauto|].
      destruct ((500 <=? status_code resp) && (status_code resp <? 600))
        eqn:H5; [eauto|].
      apply andb_false_iff in H4, H5. exfalso.
      destruct H4 as [H4 | H4], H5 as [H5 | H5];
        try apply Z.leb_gt in H4; try apply Z.ltb_ge in H4;
        try apply Z.leb_gt in H5; try apply Z.ltb_ge in H5; lia. }
    destruct Hs as (detail & Hs). exists detail. split; [exact Hs|].
    intros cur'. rewrite Hfront, Hs. reflexivity.
  - intros j cause Hs Hbody Hsub cur'.
    unfold check_for_updates_in_github.
    unfold bind at 1. rewrite define_headers_eval, Hcred.
    unfold bind at 1. rewrite get_release_eval. cbn [self log].
    rewrite requests_sent_advisory.
    fold (release_request u r rel token). rewrite Hnet, Hs.
    unfold bind at 1. unfold response_json. rewrite Hbody. unfold ret at 1.
    unfold bind at 1. unfold lift at 1. rewrite Hsub.
    rewrite <- app_assoc. reflexivity.
  - intros tag. rewrite Hfront.
    destruct (raise_for_status resp) eqn:Hs; [discriminate|].
    unfold check_for_updates_in_github.
    unfold bind at 1. rewrite define_headers_eval, Hcred.
    unfold bind at 1. rewrite get_release_eval. cbn [self log].
    rewrite requests_sent_advisory.
    fold (release_request u r rel token). rewrite Hnet, Hs.
    unfold bind at 1. unfold response_json.
    destruct (body resp) as [j|]; [|discriminate].
    unfold ret at 1. unfold bind at 1. unfold lift at 1.
    destruct (subscript j "tag_name") as [tag' | e] eqn:Hsub; [|discriminate].
    unfold bind at 1. unfold lift at 1.
    destruct (Version_of_json tag') as [v | e] eqn:Hver; [|discriminate].
    unfold bind at 1. unfold lift at 1.
    destruct (is_greater_than v cur) as [[|] | e] eqn:Hgt;
      [| discriminate | discriminate].
    unfold bind at 1. unfold set_update_available at 1.
    destruct upd; cbn [negb].
    + destruct files as [files|]; [|discriminate].
      unfold bind at 1.
      match goal with
      | |- context [match ?m ?s0 with _ => _ end] =>
          destruct (m s0) as [[d | e] s1]
      end; [|discriminate].
      unfold bind at 1.
      destruct (call_update_from_github w u r files d private token um args s1)
        as [[[] | e] s2]; discriminate.
    + unfold ret. cbn [fst]. intros [= <-].
      split; [reflexivity|]. exists j, v. auto.
Qed.

Lemma response_handling_witness :
  (exists detail,
      raise_for_status not_found = Some detail /\
      forall cur',
        check_for_updates_in_github (always (Responded not_found))
          cur' "u" "r" "latest" false None false None None None []
          (start VersionFlow_init)
        = (Raise (ServerResponseErr ("Failed to connect: " ++ detail)),
           {| self := VersionFlow_init;
              log := [Get (release_request "u" "r" "latest" None)] |})) /\
  (forall cur',
      check_for_updates_in_github (always (Responded release_without_tag))
        cur' "u" "r" "latest" false None false None None None []
        (start VersionFlow_init)
      = (Raise (ReleaseTagErr (KeyError "tag_name")),
         {| self := VersionFlow_init;
            log := [Get (release_request "u" "r" "latest" None)] |})) /\
  (raise_for_status (release_with_tag "v1.1.0") = None /\
   exists j v,
     body (release_with_tag "v1.1.0") = Some j /\
     subscript j "tag_name" = Ok (JStr "v1.1.0") /\
     Version_of_json (JStr "v1.1.0") = Ok v /\
     is_greater_than v "1.0.0" = Ok true).
Proof.
  split; [|split].
  - destruct (response_handling (always (Responded not_found))
                (start VersionFlow_init) "1.0.0" "u" "r" "latest" false
                None false None None None [] not_found eq_refl eq_refl)
      as (Herror & _ & _).
    apply Herror. cbn. lia.
  - destruct (response_handling (always (Responded release_without_tag))
                (start VersionFlow_init) "1.0.0" "u" "r" "latest" false
                None false None None None [] release_without_tag
                eq_refl eq_refl)
      as (_ & Hnotag & _).
    apply (Hnotag (JDict [("name", JStr "release")]) (KeyError "tag_name"));
      reflexivity.
  - destruct (response_handling
                (always (Responded (release_with_tag "v1.1.0")))
                (start VersionFlow_init) "1.0.0" "u" "r" "latest" false
                None false None None None [] (release_with_tag "v1.1.0")
                eq_refl eq_refl)
      as (_ & _ & Htag).
    apply (Htag (JStr "v1.1.0")). reflexivity.
Defined.

(* ================================================================== *)
(** * Further properties of [Version] *)
(* ================================================================== *)

Lemma triple_gt_irrefl (t : Z * Z * Z) : ~ triple_gt t t.
Proof. destruct t as [[a b] c]. unfold triple_gt. lia. Qed.

Lemma triple_ge_trans (a b c : Z * Z * Z) :
  triple_ge a b -> triple_ge b c -> triple_ge a c.
Proof.
  destruct a as [[a0 a1] a2], b as [[b0 b1] b2], c as [[c0 c1] c2].
  unfold triple_ge, triple_gt.
  intros [H1 | H1] [H2 | H2];
    try (inversion H1; subst); try (inversion H2; subst);
    try (left; lia); try (right; reflexivity).
Qed.

Lemma triple_ge_total (a b : Z * Z * Z) : triple_ge a b \/ triple_ge b a.
Proof.
  destruct a as [[a0 a1] a2], b as [[b0 b1] b2].
  unfold triple_ge, triple_gt.
  destruct (Z.lt_trichotomy a0 b0) as [H0 | [H0 | H0]];
    [right; left; lia | | left; left; lia].
  destruct (Z.lt_trichotomy a1 b1) as [H1 | [H1 | H1]];
    [right; left; lia | | left; left; lia].
  destruct (Z.lt_trichotomy a2 b2) as [H2 | [H2 | H2]];
    [right; left; lia | | left; left; lia].
  subst. left. right. reflexivity.
Qed.

Lemma triple_ge_antisym (a b : Z * Z * Z) :
  triple_ge a b -> triple_ge b a -> a = b.
Proof.
  destruct a as [[a0 a1] a2], b as [[b0 b1] b2].
  unfold triple_ge, triple_gt.
  intros [H1 | H1] [H2 | H2]; try congruence.
  exfalso. lia.
Qed.

(** X1: on two valid version strings, [Version(a).is_greater_than(b)] is
    [True] exactly when the triple of [a] is greater than or equal to the
    triple of [b], and [False] exactly when the triple of [b] is strictly
    greater. *)
Theorem is_greater_than_is_ge (a b : string) (ta tb : Z * Z * Z) :
  parse a = Ok ta ->
  parse b = Ok tb ->
  exists v,
    Version_init a = Ok v /\
    (is_greater_than v b = Ok true <-> triple_ge ta tb) /\
    (is_greater_than v b = Ok false <-> triple_gt tb ta).
Proof.
  intros Ha Hb.
  destruct (is_greater_than_spec a b ta tb Ha Hb) as (v & Hv & _ & Hgt).
  exists v. split; [exact Hv|]. rewrite Hgt.
  rewrite <- tuple_lt_false_iff, <- tuple_lt_true_iff.
  destruct (Py.tuple_lt ta tb); cbn [negb]; repeat split; congruence.
Qed.

Lemma is_greater_than_is_ge_witness :
  (parse "v1.10" = Ok (1, 10, 0) /\ parse "1.9.7" = Ok (1, 9, 7)) /\
  exists v,
    Version_init "v1.10" = Ok v /\
    (is_greater_than v "1.9.7" = Ok true <-> triple_ge (1, 10, 0) (1, 9, 7)) /\
    (is_greater_than v "1.9.7" = Ok false <-> triple_gt (1, 9, 7) (1, 10, 0)).
Proof.
  split.
  - split; reflexivity.
  - apply (is_greater_than_is_ge "v1.10" "1.9.7" (1, 10, 0) (1, 9, 7));
      reflexivity.
Defined.

(** X2: the comparison is total and antisymmetric on valid versions: of
    [Version(a).is_greater_than(b)] and [Version(b).is_greater_than(a)] at
    least one is [True], and both are exactly when the two strings parse
    to the same triple. *)
Theorem is_greater_than_total (a b : string) (ta tb : Z * Z * Z) :
  parse a = Ok ta ->
  parse b = Ok tb ->
  exists va vb,
    Version_init a = Ok va /\
    Version_init b = Ok vb /\
    (is_greater_than va b = Ok true \/ is_greater_than vb a = Ok true) /\
    (is_greater_than va b = Ok true /\ is_greater_than vb a = Ok true
     <-> ta = tb).
Proof.
  intros Ha Hb.
  destruct (is_greater_than_spec a b ta tb Ha Hb) as (va & Hva & _ & Hab).
  destruct (is_greater_than_spec b a tb ta Hb Ha) as (vb & Hvb & _ & Hba).
  exists va, vb. split; [exact Hva|]. split; [exact Hvb|].
  assert (Eab : is_greater_than va b = Ok true <-> triple_ge ta tb).
  { rewrite Hab, <- tuple_lt_false_iff.
    destruct (Py.tuple_lt ta tb); cbn [negb]; split; congruence. }
  assert (Eba : is_greater_than vb a = Ok true <-> triple_ge tb ta).
  { rewrite Hba, <- tuple_lt_false_iff.
    destruct (Py.tuple_lt tb ta); cbn [negb]; split; congruence. }
  rewrite Eab, Eba. split.
  - apply triple_ge_total.
  - split.
    + intros [H1 H2]. apply triple_ge_antisym; assumption.
    + intros ->. split; right; reflexivity.
Qed.

Lemma is_greater_than_total_witness :
  (parse "2" = Ok (2, 0, 0) /\ parse "v2.0.0" = Ok (2, 0, 0)) /\
  exists va vb,
    Version_init "2" = Ok va /\
    Version_init "v2.0.0" = Ok vb /\
    (is_greater_than va "v2.0.0" = Ok true \/
     is_greater_than vb "2" = Ok true) /\
    (is_greater_than va "v2.0.0" = Ok true /\
     is_greater_than vb "2" = Ok true
     <-> (2, 0, 0) = (2, 0, 0)).
Proof.
  split.
  - split; reflexivity.
  - apply (is_greater_than_total "2" "v2.0.0" (2, 0, 0) (2, 0, 0));
      reflexivity.
Defined.

(** X3: the comparison is transitive on valid versions: when
    [Version(a).is_greater_than(b)] and [Version(b).is_greater_than(c)]
    are [True], so is [Version(a).is_greater_than(c)]. *)
Theorem is_greater_than_trans (a b c : string) (va vb : Version)
  (tc : Z * Z * Z) :
  Version_init a = Ok va ->
  Version_init b = Ok vb ->
  parse c = Ok tc ->
  is_greater_than va b = Ok true ->
  is_greater_than vb c = Ok true ->
  is_greater_than va c = Ok true.
Proof.
  intros Hva Hvb Hc Hab Hbc.
  assert (Hpa : exists ta, parse a = Ok ta).
  { unfold Version_init, rbind in Hva. destruct (parse a); [eauto|discriminate]. }
  assert (Hpb : exists tb, parse b = Ok tb).
  { unfold Version_init, rbind in Hvb. destruct (parse b); [eauto|discriminate]. }
  destruct Hpa as (ta & Ha), Hpb as (tb & Hb).
  destruct (is_greater_than_spec a b ta tb Ha Hb) as (va' & Hva' & _ & Eab).
  destruct (is_greater_than_spec b c tb tc Hb Hc) as (vb' & Hvb' & _ & Ebc).
  destruct (is_greater_than_spec a c ta tc Ha Hc) as (va'' & Hva'' & _ & Eac).
  assert (va' = va) by congruence. assert (vb' = vb) by congruence.
  assert (va'' = va) by congruence. subst va' vb' va''.
  rewrite Eac. rewrite Eab in Hab. rewrite Ebc in Hbc.
  assert (G1 : triple_ge ta tb).
  { apply tuple_lt_false_iff. destruct (Py.tuple_lt ta tb);
      [discriminate Hab | reflexivity]. }
  assert (G2 : triple_ge tb tc).
  { apply tuple_lt_false_iff. destruct (Py.tuple_lt tb tc);
      [discriminate Hbc | reflexivity]. }
  pose proof (triple_ge_trans _ _ _ G1 G2) as G.
  apply tuple_lt_false_iff in G. rewrite G. reflexivity.
Qed.

Lemma is_greater_than_trans_witness :
  is_greater_than {| version := "v3.0.0" |} "1.0" = Ok true.
Proof.
  apply (is_greater_than_trans "3" "v2.5" "1.0"
           {| version := "v3.0.0" |} {| version := "v2.5.0" |} (1, 0, 0));
    reflexivity.
Defined.

(** [parse] by the number of segments. *)
Lemma parse_by_segments (s : string) :
  parse s =
  match segments s with
  | [] => Raise (ValueError "")
  | [p0] => (a <-- Py.int p0 ;; Ok (a, 0, 0))%result
  | [p0; p1] => (a <-- Py.int p0 ;; b <-- Py.int p1 ;; Ok (a, b, 0))%result
  | p0 :: p1 :: p2 :: _ =>
      (a <-- Py.int p0 ;; b <-- Py.int p1 ;; c <-- Py.int p2 ;;
       Ok (a, b, c))%result
  end.
Proof.
  unfold parse. fold (segments s).
  destruct (split_nonempty "."
              (if Py.startswith s "v" then Py.slice_from_1 s else s))
    as (h & t & Hsplit).
  unfold segments at 2. unfold segments. rewrite Hsplit.
  destruct t as [|p1 [|p2 rest]]; cbn [nth List.length Nat.ltb Nat.leb];
    unfold rbind; destruct (Py.int h); try reflexivity;
    destruct (Py.int p1); reflexivity.
Qed.

Lemma int_ok_iff (s : string) :
  (exists z, Py.int s = Ok z) <-> Py.int_opt s <> None.
Proof.
  unfold Py.int. destruct (Py.int_opt s); split;
    try congruence; eauto.
  intros [z Hz]. discriminate Hz.
Qed.

Lemma segments_nonempty (s : string) : segments s <> [].
Proof.
  unfold segments.
  destruct (split_nonempty "."
              (if Py.startswith s "v" then Py.slice_from_1 s else s))
    as (h & t & ->).
  discriminate.
Qed.

(** X4: [parse] accepts a string exactly when each of the first three
    dot-separated segments that are present (after one leading [v] is
    removed) is an integer literal for [int]. *)
Theorem parse_accepts_iff (s : string) :
  (exists t, parse s = Ok t) <->
  (forall i seg, (i < 3)%nat ->
                 nth_error (segments s) i = Some seg ->
                 Py.int_opt seg <> None).
Proof.
  rewrite parse_by_segments. pose proof (segments_nonempty s) as Hne.
  destruct (segments s) as [|p0 [|p1 [|p2 rest]]]; [congruence | | |];
    unfold rbind, Py.int; split.
  - intros [t Ht] [|i] seg Hi Hn; cbn in Hn.
    + injection Hn as <-. destruct (Py.int_opt p0); [discriminate|discriminate Ht].
    + destruct i; discriminate Hn.
  - intros H. specialize (H 0%nat p0 ltac:(lia) eq_refl).
    destruct (Py.int_opt p0); [eauto | congruence].
  - intros [t Ht] [|[|i]] seg Hi Hn; cbn in Hn.
    + injection Hn as <-. destruct (Py.int_opt p0); [discriminate|discriminate Ht].
    + injection Hn as <-. destruct (Py.int_opt p0); [|discriminate Ht].
      destruct (Py.int_opt p1); [discriminate|discriminate Ht].
    + destruct i; discriminate Hn.
  - intros H.
    pose proof (H 0%nat p0 ltac:(lia) eq_refl) as H0.
    pose proof (H 1%nat p1 ltac:(lia) eq_refl) as H1.
    destruct (Py.int_opt p0); [|congruence].
    destruct (Py.int_opt p1); [eauto | congruence].
  - intros [t Ht] [|[|[|i]]] seg Hi Hn; cbn in Hn; [| | |lia].
    + injection Hn as <-. destruct (Py.int_opt p0); [discriminate|discriminate Ht].
    + injection Hn as <-. destruct (Py.int_opt p0); [|discriminate Ht].
      destruct (Py.int_opt p1); [discriminate|discriminate Ht].
    + injection Hn as <-. destruct (Py.int_opt p0); [|discriminate Ht].
      destruct (Py.int_opt p1); [|discriminate Ht].
      destruct (Py.int_opt p2); [discriminate|discriminate Ht].
  - intros H.
    pose proof (H 0%nat p0 ltac:(lia) eq_refl) as H0.
    pose proof (H 1%nat p1 ltac:(lia) eq_refl) as H1.
    pose proof (H 2%nat p2 ltac:(lia) eq_refl) as H2.
    destruct (Py.int_opt p0); [|congruence].
    destruct (Py.int_opt p1); [|congruence].
    destruct (Py.int_opt p2); [eauto | congruence].
Qed.

(** X5: when [parse] fails, it fails with the [ValueError] of [int] on one
    of the first three segments, a segment that [int] rejects; it raises
    nothing else. *)
Theorem parse_raises_ValueError (s : string) (e : exn) :
  parse s = Raise e ->
  exists i seg,
    (i < 3)%nat /\
    nth_error (segments s) i = Some seg /\
    Py.int_opt seg = None /\
    e = ValueError seg.
Proof.
  rewrite parse_by_segments. pose proof (segments_nonempty s) as Hne.
  destruct (segments s) as [|p0 [|p1 [|p2 rest]]]; [congruence | | |];
    unfold rbind, Py.int;
    destruct (Py.int_opt p0) eqn:E0;
    try (intros [= <-]; exists 0%nat, p0; repeat split; (lia || assumption));
    try discriminate;
    destruct (Py.int_opt p1) eqn:E1;
    try (intros [= <-]; exists 1%nat, p1; repeat split; (lia || assumption));
    try discriminate;
    destruct (Py.int_opt p2) eqn:E2;
    try (intros [= <-]; exists 2%nat, p2; repeat split; (lia || assumption));
    try discriminate.
Qed.

Lemma parse_raises_ValueError_witness :
  parse "1.x.3" = Raise (ValueError "x") /\
  exists i seg,
    (i < 3)%nat /\
    nth_error (segments "1.x.3") i = Some seg /\
    Py.int_opt seg = None /\
    ValueError "x" = ValueError seg.
Proof.
  split.
  - reflexivity.
  - apply (parse_raises_ValueError "1.x.3" (ValueError "x")). reflexivity.
Defined.

(** X6: [parse] reads the first three segments only: two strings whose
    lists of segments agree on their first three entries give the same
    result. *)
Theorem parse_first_three_segments (s1 s2 : string) :
  firstn 3 (segments s1) = firstn 3 (segments s2) ->
  parse s1 = parse s2.
Proof.
  rewrite !parse_by_segments.
  pose proof (segments_nonempty s1) as Hne1.
  pose proof (segments_nonempty s2) as Hne2.
  destruct (segments s1) as [|p0 [|p1 [|p2 r1]]]; [congruence | | |];
    (destruct (segments s2) as [|q0 [|q1 [|q2 r2]]]; [congruence | | |]);
    cbn [firstn]; intros H; inversion H; reflexivity.
Qed.

Lemma parse_first_three_segments_witness :
  firstn 3 (segments "v1.2.3.rc.4") = firstn 3 (segments "1.2.3") /\
  parse "v1.2.3.rc.4" = parse "1.2.3".
Proof.
  split.
  - reflexivity.
  - apply (parse_first_three_segments "v1.2.3.rc.4" "1.2.3"). reflexivity.
Defined.

(** X7: the stored string identifies the triple: two objects built by the
    constructor hold the same [version] exactly when their arguments parse
    to the same triple. *)
Theorem Version_init_canonical (s1 s2 : string) (v1 v2 : Version) :
  Version_init s1 = Ok v1 ->
  Version_init s2 = Ok v2 ->
  (version v1 = version v2 <-> parse s1 = parse s2).
Proof.
  unfold Version_init, rbind.
  destruct (parse s1) as [t1|] eqn:H1; [|discriminate].
  destruct (parse s2) as [t2|] eqn:H2; [|discriminate].
  intros [= <-] [= <-]. cbn [version]. split.
  - intros H. apply format_version_inj in H. congruence.
  - intros [= ->]. reflexivity.
Qed.

Lemma Version_init_canonical_witness :
  version {| version := "v1.2.0" |} = version {| version := "v1.2.0" |}
  <-> parse "v01.2" = parse " 1.2.0".
Proof.
  apply (Version_init_canonical "v01.2" " 1.2.0"); reflexivity.
Defined.

(** X8: on an object built by the constructor, [is_greater_than] raises
    exactly what [parse] raises on the version to check: its own stored
    string always parses. *)
Theorem is_greater_than_raises (a b : string) (v : Version) (e : exn) :
  Version_init a = Ok v ->
  (is_greater_than v b = Raise e <-> parse b = Raise e).
Proof.
  unfold Version_init, rbind.
  destruct (parse a) as [ta|] eqn:Ha; [|discriminate].
  intros [= <-]. unfold is_greater_than. cbn [version].
  rewrite parse_format_version. cbn [rbind].
  destruct (parse b); cbn [rbind]; split; congruence.
Qed.

Lemma is_greater_than_raises_witness :
  is_greater_than {| version := "v1.0.0" |} "1.0-beta"
  = Raise (ValueError "0-beta")
  <-> parse "1.0-beta" = Raise (ValueError "0-beta").
Proof.
  apply (is_greater_than_raises "1" "1.0-beta"). reflexivity.
Defined.

(* ================================================================== *)
(** * Further properties of [VersionFlow] *)
(* ================================================================== *)

Lemma requests_sent_snoc_get (l : list event) (r : request) :
  requests_sent (l ++ [Get r]) = S (requests_sent l).
Proof. rewrite requests_sent_app. cbn. lia. Qed.

(** The update check, evaluated along every path. *)
Lemma check_for_updates_eval (w : world) (st : state)
  (cur u r rel : string) (private : bool) (token : option string)
  (upd : bool) (files : option (list string)) (dd : option string)
  (um : option callable) (args : list pyarg) :
  let req := release_request u r rel token in
  let l1 := (log st ++ advisory private token ++ [Get req])%list in
  let st1 := {| self := self st; log := l1 |} in
  let st2 := {| self := found (self st); log := l1 |} in
  let l2 := (l1 ++ directory_advisory dd)%list in
  let req' := release_request u r (download_target args) token in
  let st3 := {| self := found (self st);
                log := l2 ++ advisory private token ++ [Get req'] |} in
  check_for_updates_in_github w cur u r rel private token upd files dd
    um args st
  = if credentials_ok private token then
      match net w (requests_sent (log st)) req with
      | Failed e => (Raise (RequestsError e), st1)
      | Responded resp =>
        match raise_for_status resp with
        | Some d =>
            (Raise (ServerResponseErr ("Failed to connect: " ++ d)), st1)
        | None =>
          match body resp with
          | None => (Raise (RequestsError Requests.JSONDecodeError), st1)
          | Some j =>
            match subscript j "tag_name" with
            | Raise e => (Raise e, st1)
            | Ok tag =>
              match Version_of_json tag with
              | Raise e => (Raise e, st1)
              | Ok v =>
                match is_greater_than v cur with
                | Raise e => (Raise e, st1)
                | Ok false => (Ok None, st1)
                | Ok true =>
                  if negb upd then (Ok (Some tag), st2)
                  else
                    match files with
                    | None => (Raise (FilesNotSetErr no_files_msg), st2)
                    | Some _ =>
                      match args with
                      | _ :: _ :: _ =>
                          (Raise (TypeError multiple_values_msg),
                           {| self := found (self st); log := l2 |})
                      | _ =>
                        match net w (S (requests_sent (log st))) req' with
                        | Failed e => (Raise (RequestsError e), st3)
                        | Responded resp' =>
                          match raise_for_status resp' with
                          | Some d =>
                              (Raise (ServerResponseErr
                                        ("Failed to connect: " ++ d)), st3)
                          | None => (Ok None, st3)
                          end
                        end
                      end
                    end
                end
              end
            end
          end
        end
      end
    else (Raise (GitHubTokenErr token_missing_msg), st).
Proof.
  cbv zeta.
  unfold check_for_updates_in_github.
  unfold bind at 1. rewrite define_headers_eval.
  destruct (credentials_ok private token) eqn:Hcred; [|reflexivity].
  unfold bind at 1. rewrite get_release_eval. cbn [self log].
  rewrite requests_sent_advisory.
  fold (release_request u r rel token). rewrite <- app_assoc.
  set (req := release_request u r rel token).
  set (l1 := (log st ++ advisory private token ++ [Get req])%list).
  destruct (net w (requests_sent (log st)) req) as [resp | e]; [|reflexivity].
  destruct (raise_for_status resp); [reflexivity|].
  unfold bind at 1. unfold response_json.
  destruct (body resp) as [j|]; [|reflexivity].
  unfold ret at 1. unfold bind at 1. unfold lift at 1.
  destruct (subscript j "tag_name") as [tag | e]; [|reflexivity].
  unfold bind at 1. unfold lift at 1.
  destruct (Version_of_json tag) as [v | e]; [|reflexivity].
  unfold bind at 1. unfold lift at 1.
  destruct (is_greater_than v cur) as [[|] | e]; [| reflexivity | reflexivity].
  unfold bind at 1. unfold set_update_available at 1. cbn [self log].
  fold (found (self st)).
  destruct upd; cbn [negb]; [|reflexivity].
  destruct files as [files|]; [|reflexivity].
  unfold bind at 1.
  assert (Hdir :
    match dd with
    | Some d => ret d
    | None => (warn DownloadDirectoryWarning no_directory_msg ;;;
               ret (cwd w))%vf
    end {| self := found (self st); log := l1 |}
    = (Ok match dd with Some d => d | None => cwd w end,
       {| self := found (self st); log := l1 ++ directory_advisory dd |})).
  { destruct dd; cbn; rewrite ?app_nil_r; reflexivity. }
  rewrite Hdir. unfold bind at 1. unfold call_update_from_github.
  assert (Hsent : requests_sent (l1 ++ directory_advisory dd)
                  = S (requests_sent (log st))).
  { rewrite requests_sent_directory_advisory. unfold l1.
    rewrite app_assoc, requests_sent_snoc_get, requests_sent_advisory.
    reflexivity. }
  destruct args as [|a [|b args]]; [| |reflexivity].
  - rewrite update_from_github_eval, Hcred. cbn [self log].
    rewrite Hsent. cbn [directory_advisory download_target format_arg].
    destruct (net w _ _) as [resp' | e'];
      [destruct (raise_for_status resp')|]; reflexivity.
  - rewrite update_from_github_eval, Hcred. cbn [self log].
    rewrite Hsent. cbn [directory_advisory download_target].
    destruct (net w _ _) as [resp' | e'];
      [destruct (raise_for_status resp')|]; reflexivity.
Qed.

(** The comparison of a tag with the current version, when both parse. *)
Lemma tag_comparison (tag cur : string) (t_tag t_cur : Z * Z * Z) :
  parse tag = Ok t_tag ->
  parse cur = Ok t_cur ->
  exists v,
    Version_of_json (JStr tag) = Ok v /\
    is_greater_than v cur = Ok (negb (Py.tuple_lt t_tag t_cur)).
Proof.
  intros Htag Hcur.
  destruct (is_greater_than_spec tag cur t_tag t_cur Htag Hcur)
    as (v & Hv & _ & Hgt).
  exists v. split; [exact Hv | exact Hgt].
Qed.

(** X9: in a call without [update], a release whose tag is not below the
    current version is reported: the call returns the tag as the release
    document spells it, sets [update_available], and its only request is
    the one for the release. *)
Theorem newer_release_is_reported (w : world) (st : state)
  (cur u r rel : string) (private : bool) (token : option string)
  (files : option (list string)) (dd : option string)
  (um : option callable) (args : list pyarg)
  (resp : response) (j : json) (tag : string) (t_tag t_cur : Z * Z * Z) :
  credentials_ok private token = true ->
  net w (requests_sent (log st)) (release_request u r rel token)
    = Responded resp ->
  raise_for_status resp = None ->
  body resp = Some j ->
  subscript j "tag_name" = Ok (JStr tag) ->
  parse tag = Ok t_tag ->
  parse cur = Ok t_cur ->
  triple_ge t_tag t_cur ->
  check_for_updates_in_github w cur u r rel private token false files dd
    um args st
  = (Ok (Some (JStr tag)),
     {| self := found (self st);
        log := log st ++ advisory private token
               ++ [Get (release_request u r rel token)] |}).
Proof.
  intros Hcred Hnet Hstatus Hbody Hsub Htag Hcur Hge.
  destruct (tag_comparison tag cur t_tag t_cur Htag Hcur) as (v & Hv & Hgt).
  apply tuple_lt_false_iff in Hge. rewrite Hge in Hgt. cbn [negb] in Hgt.
  rewrite check_for_updates_eval, Hcred, Hnet, Hstatus, Hbody, Hsub, Hv, Hgt.
  reflexivity.
Qed.

Lemma newer_release_is_reported_witness :
  check_for_updates_in_github
    (always (Responded (release_with_tag "1.1.0")))
    "1.0.0" "u" "r" "latest" false None false None None None []
    (start VersionFlow_init)
  = (Ok (Some (JStr "1.1.0")),
     {| self := found (self (start VersionFlow_init));
        log := [Get (release_request "u" "r" "latest" None)] |}).
Proof.
  apply (newer_release_is_reported
           (always (Responded (release_with_tag "1.1.0")))
           (start VersionFlow_init) "1.0.0" "u" "r" "latest" false None
           None None None [] (release_with_tag "1.1.0")
           (JDict [("name", JStr "release"); ("tag_name", JStr "1.1.0")])
           "1.1.0" (1, 1, 0) (1, 0, 0));
    try reflexivity.
  left. cbn. lia.
Defined.

(** X10: what the methods do to the object.  The update check never
    touches [internet_status] and never resets [update_available]: it
    leaves the object as it was or sets [update_available].  The download
    step leaves the object as it was.  The probe never touches
    [update_available]. *)
Theorem object_invariants (w : world) (st : state)
  (cur u r rel : string) (private : bool) (token : option string)
  (upd : bool) (files : option (list string)) (files' : list string)
  (dd : option string) (tv : pyarg) (um : option callable)
  (args : list pyarg) (timeout : Z) (server : string) :
  (let st' := snd (check_for_updates_in_github w cur u r rel private token
                     upd files dd um args st) in
   self st' = self st \/ self st' = found (self st)) /\
  self (snd (update_from_github w u r files' dd tv private token um args st))
  = self st /\
  update_available
    (self (snd (check_internet_connection w timeout server st)))
  = update_available (self st).
Proof.
  cbv zeta. split; [|split].
  - rewrite check_for_updates_eval.
    repeat match goal with
           | |- context [match ?x with _ => _ end] => destruct x
           | |- context [if ?x then _ else _] => destruct x
           end;
      cbn [snd self]; auto.
  - rewrite update_from_github_eval.
    repeat match goal with
           | |- context [match ?x with _ => _ end] => destruct x
           | |- context [if ?x then _ else _] => destruct x
           end;
      reflexivity.
  - unfold check_internet_connection, try_except, bind, requests_get,
      set_internet_status, ret.
    destruct (net w _ _) as [resp | e]; cbn; [reflexivity|].
    destruct (Requests.is_ConnectionError e || Requests.is_ConnectTimeout e);
      reflexivity.
Qed.

Lemma requests_sent_advisories (private : bool) (token : option string)
  (dd : option string) :
  requests_sent (advisory private token) = 0%nat /\
  requests_sent (directory_advisory dd) = 0%nat.
Proof. destruct token, private, dd; split; reflexivity. Qed.

(** X11: the log only grows, and the requests of a call are bounded: the
    update check issues at most two requests, at most one when [update]
    is false; the download step at most one; the probe exactly one. *)
Theorem request_budget (w : world) (st : state)
  (cur u r rel : string) (private : bool) (token : option string)
  (upd : bool) (files : option (list string)) (files' : list string)
  (dd : option string) (tv : pyarg) (um : option callable)
  (args : list pyarg) (timeout : Z) (server : string) :
  (exists new,
      log (snd (check_for_updates_in_github w cur u r rel private token
                  upd files dd um args st)) = (log st ++ new)%list /\
      (requests_sent new <= if upd then 2 else 1)%nat) /\
  (exists new,
      log (snd (update_from_github w u r files' dd tv private token um
                  args st)) = (log st ++ new)%list /\
      (requests_sent new <= 1)%nat) /\
  log (snd (check_internet_connection w timeout server st))
  = (log st ++ [Get (probe_request timeout server)])%list.
Proof.
  destruct (requests_sent_advisories private token dd) as [Ha Hd].
  split; [|split].
  - rewrite check_for_updates_eval. destruct upd; cbn [negb];
    repeat match goal with
           | |- context [match ?x with _ => _ end] => destruct x
           | |- context [if ?x then _ else _] => destruct x
           end;
      cbn [snd log];
      first
        [ exists []; split; [rewrite app_nil_r; reflexivity | cbn; lia]
        | eexists; split;
          [ rewrite <- ?app_assoc; reflexivity
          | rewrite ?requests_sent_app, ?Ha, ?Hd; cbn; lia ] ].
  - rewrite update_from_github_eval.
    repeat match goal with
           | |- context [match ?x with _ => _ end] => destruct x
           | |- context [if ?x then _ else _] => destruct x
           end;
      cbn [snd log]; eexists; (split; [reflexivity|]);
      rewrite ?requests_sent_app, ?Ha, ?Hd; cbn; lia.
  - unfold check_internet_connection, try_except, bind, requests_get,
      set_internet_status, ret, probe_request.
    destruct (net w _ _) as [resp | e]; cbn; [reflexivity|].
    destruct (Requests.is_ConnectionError e || Requests.is_ConnectTimeout e);
      reflexivity.
Qed.

(** X12: an exception of the GET for the release is not wrapped: both the
    update check and the download step raise it to the caller as it is,
    with the request as their last effect. *)
Theorem transport_failure_is_raised (w : world) (st : state)
  (cur u r rel : string) (private : bool) (token : option string)
  (upd : bool) (files : option (list string)) (files' : list string)
  (dd : option string) (tv : pyarg) (um : option callable)
  (args : list pyarg) (e : Requests.exception) :
  credentials_ok private token = true ->
  (net w (requests_sent (log st)) (release_request u r rel token)
     = Failed e ->
   check_for_updates_in_github w cur u r rel private token upd files dd
     um args st
   = (Raise (RequestsError e),
      {| self := self st;
         log := log st ++ advisory private token
                ++ [Get (release_request u r rel token)] |})) /\
  (net w (requests_sent (log st))
     (release_request u r (format_arg tv) token) = Failed e ->
   update_from_github w u r files' dd tv private token um args st
   = (Raise (RequestsError e),
      {| self := self st;
         log := log st ++ directory_advisory dd ++ advisory private token
                ++ [Get (release_request u r (format_arg tv) token)] |})).
Proof.
  intros Hcred. split; intros Hnet.
  - rewrite check_for_updates_eval, Hcred, Hnet. reflexivity.
  - rewrite update_from_github_eval, Hcred, Hnet. reflexivity.
Qed.

Lemma transport_failure_is_raised_witness :
  check_for_updates_in_github (always (Failed Requests.SSLError))
    "1.0.0" "u" "r" "latest" false None false None None None []
    (start VersionFlow_init)
  = (Raise (RequestsError Requests.SSLError),
     {| self := VersionFlow_init;
        log := [Get (release_request "u" "r" "latest" None)] |}) /\
  update_from_github (always (Failed Requests.SSLError))
    "u" "r" ["app.bin"] (Some "/tmp") (ArgStr "latest") false None None []
    (start VersionFlow_init)
  = (Raise (RequestsError Requests.SSLError),
     {| self := VersionFlow_init;
        log := [Get (release_request "u" "r" "latest" None)] |}).
Proof.
  destruct (transport_failure_is_raised (always (Failed Requests.SSLError))
              (start VersionFlow_init) "1.0.0" "u" "r" "latest" false None
              false None ["app.bin"] (Some "/tmp") (ArgStr "latest") None []
              Requests.SSLError eq_refl) as [Hcheck Hupdate].
  split; [apply Hcheck | apply Hupdate]; reflexivity.
Defined.

(** X13: what the body of the response can break.  A body that is not a
    JSON document makes the call fail with the [JSONDecodeError] of
    [requests], not with [ReleaseTagErr]; a ['tag_name'] that is not a
    string makes it fail with [AttributeError]; a tag that does not parse
    makes it fail with the [ValueError] of [parse], whatever the current
    version is.  In each case the object is left as it was. *)
Theorem malformed_release_document (w : world) (st : state)
  (cur u r rel : string) (private : bool) (token : option string)
  (upd : bool) (files : option (list string)) (dd : option string)
  (um : option callable) (args : list pyarg) (resp : response) :
  credentials_ok private token = true ->
  net w (requests_sent (log st)) (release_request u r rel token)
    = Responded resp ->
  raise_for_status resp = None ->
  let run := check_for_updates_in_github w cur u r rel private token upd
               files dd um args st in
  let st1 := {| self := self st;
                log := log st ++ advisory private token
                       ++ [Get (release_request u r rel token)] |} in
  (body resp = None ->
   run = (Raise (RequestsError Requests.JSONDecodeError), st1)) /\
  (forall j tag,
      body resp = Some j ->
      subscript j "tag_name" = Ok tag ->
      (forall s, tag <> JStr s) ->
      run = (Raise (AttributeError "startswith"), st1)) /\
  (forall j tag e,
      body resp = Some j ->
      subscript j "tag_name" = Ok (JStr tag) ->
      parse tag = Raise e ->
      run = (Raise e, st1)).
Proof.
  intros Hcred Hnet Hstatus. cbv zeta.
  rewrite check_for_updates_eval, Hcred, Hnet, Hstatus.
  split; [|split].
  - intros ->. reflexivity.
  - intros j tag -> -> Htag.
    destruct tag; try reflexivity. exfalso. eapply Htag. reflexivity.
  - intros j tag e -> -> Hparse. cbn [Version_of_json].
    unfold Version_init, rbind. rewrite Hparse. reflexivity.
Qed.

Lemma malformed_release_document_witness :
  check_for_updates_in_github
    (always (Responded
               {| status_code := 200; reason := "OK";
                  url := "https://api.github.com/repos/u/r/releases/latest";
                  body := Some (JDict [("tag_name", JNull)]) |}))
    "1.0.0" "u" "r" "latest" false None false None None None []
    (start VersionFlow_init)
  = (Raise (AttributeError "startswith"),
     {| self := VersionFlow_init;
        log := [Get (release_request "u" "r" "latest" None)] |}) /\
  check_for_updates_in_github
    (always (Responded (release_with_tag "nightly")))
    "1.0.0" "u" "r" "latest" false None false None None None []
    (start VersionFlow_init)
  = (Raise (ValueError "nightly"),
     {| self := VersionFlow_init;
        log := [Get (release_request "u" "r" "latest" None)] |}).
Proof.
  split.
  - destruct (malformed_release_document
                (always (Responded
                   {| status_code := 200; reason := "OK";
                      url := "https://api.github.com/repos/u/r/releases/latest";
                      body := Some (JDict [("tag_name", JNull)]) |}))
                (start VersionFlow_init) "1.0.0" "u" "r" "latest" false None
                false None None None [] _ eq_refl eq_refl eq_refl)
      as (_ & Htype & _).
    apply (Htype (JDict [("tag_name", JNull)]) JNull);
      [reflexivity | reflexivity | discriminate].
  - destruct (malformed_release_document
                (always (Responded (release_with_tag "nightly")))
                (start VersionFlow_init) "1.0.0" "u" "r" "latest" false None
                false None None None [] _ eq_refl eq_refl eq_refl)
      as (_ & _ & Hvalue).
    apply (Hvalue (JDict [("name", JStr "release");
                          ("tag_name", JStr "nightly")]) "nightly");
      reflexivity.
Defined.

(** X14: the current version is parsed only after the release was
    fetched: when it does not parse and the tag does, the call fails with
    the [ValueError] of [parse], with the request for the release already
    issued and the object left as it was. *)
Theorem malformed_current_version (w : world) (st : state)
  (cur u r rel : string) (private : bool) (token : option string)
  (upd : bool) (files : option (list string)) (dd : option string)
  (um : option callable) (args : list pyarg)
  (resp : response) (j : json) (tag : string) (t_tag : Z * Z * Z)
  (e : exn) :
  credentials_ok private token = true ->
  net w (requests_sent (log st)) (release_request u r rel token)
    = Responded resp ->
  raise_for_status resp = None ->
  body resp = Some j ->
  subscript j "tag_name" = Ok (JStr tag) ->
  parse tag = Ok t_tag ->
  parse cur = Raise e ->
  check_for_updates_in_github w cur u r rel private token upd files dd
    um args st
  = (Raise e,
     {| self := self st;
        log := log st ++ advisory private token
               ++ [Get (release_request u r rel token)] |}).
Proof.
  intros Hcred Hnet Hstatus Hbody Hsub Htag Hcur.
  rewrite check_for_updates_eval, Hcred, Hnet, Hstatus, Hbody, Hsub.
  cbn [Version_of_json]. unfold Version_init. rewrite Htag. cbn [rbind].
  unfold is_greater_than. cbn [version].
  rewrite parse_format_version, Hcur. reflexivity.
Qed.

Lemma malformed_current_version_witness :
  check_for_updates_in_github
    (always (Responded (release_with_tag "v1.1.0")))
    "1.0.0-dev" "u" "r" "latest" false None false None None None []
    (start VersionFlow_init)
  = (Raise (ValueError "0-dev"),
     {| self := VersionFlow_init;
        log := [Get (release_request "u" "r" "latest" None)] |}).
Proof.
  apply (malformed_current_version
           (always (Responded (release_with_tag "v1.1.0")))
           (start VersionFlow_init) "1.0.0-dev" "u" "r" "latest" false None
           false None None None [] (release_with_tag "v1.1.0")
           (JDict [("name", JStr "release"); ("tag_name", JStr "v1.1.0")])
           "v1.1.0" (1, 1, 0) (ValueError "0-dev"));
    reflexivity.
Defined.

(** X15: a call with [update] and a list of files that finds a release
    not below the current version runs the download step: it sets
    [update_available], emits the advisory for a missing directory once,
    and issues a second request, for the release ["latest"], or for the
    one extra positional argument if there is one, and not for the
    [release] that was checked; the validation of the credentials runs
    again, so its advisory is emitted a second time.  When that request
    succeeds the call returns [None], not the tag. *)
Theorem update_runs_download_step (w : world) (st : state)
  (cur u r rel : string) (private : bool) (token : option string)
  (files : list string) (dd : option string)
  (um : option callable) (args : list pyarg)
  (resp resp' : response) (j : json) (tag : string)
  (t_tag t_cur : Z * Z * Z) :
  credentials_ok private token = true ->
  net w (requests_sent (log st)) (release_request u r rel token)
    = Responded resp ->
  raise_for_status resp = None ->
  body resp = Some j ->
  subscript j "tag_name" = Ok (JStr tag) ->
  parse tag = Ok t_tag ->
  parse cur = Ok t_cur ->
  triple_ge t_tag t_cur ->
  (List.length args <= 1)%nat ->
  net w (S (requests_sent (log st)))
    (release_request u r (download_target args) token) = Responded resp' ->
  raise_for_status resp' = None ->
  check_for_updates_in_github w cur u r rel private token true
    (Some files) dd um args st
  = (Ok None,
     {| self := found (self st);
        log := ((log st ++ advisory private token
                 ++ [Get (release_request u r rel token)])
                ++ directory_advisory dd)
               ++ advisory private token
               ++ [Get (release_request u r (download_target args) token)] |}).
Proof.
  intros Hcred Hnet Hstatus Hbody Hsub Htag Hcur Hge Hargs Hnet' Hstatus'.
  destruct (tag_comparison tag cur t_tag t_cur Htag Hcur) as (v & Hv & Hgt).
  apply tuple_lt_false_iff in Hge. rewrite Hge in Hgt. cbn [negb] in Hgt.
  rewrite check_for_updates_eval, Hcred, Hnet, Hstatus, Hbody, Hsub, Hv, Hgt.
  cbn [negb].
  destruct args as [|a [|b args]]; [| |cbn in Hargs; lia];
    rewrite Hnet', Hstatus'; reflexivity.
Qed.

Lemma update_runs_download_step_witness :
  check_for_updates_in_github
    (always (Responded (release_with_tag "v1.1.0")))
    "1.0.0" "u" "r" "v1.1.0" false (Some "secret") true (Some ["app.bin"])
    None None [] (start VersionFlow_init)
  = (Ok None,
     {| self := found VersionFlow_init;
        log := [Warn PrivateRepositoryWarning token_unneeded_msg;
                Get (release_request "u" "r" "v1.1.0" (Some "secret"));
                Warn DownloadDirectoryWarning no_directory_msg;
                Warn PrivateRepositoryWarning token_unneeded_msg;
                Get (release_request "u" "r" "latest" (Some "secret"))] |}).
Proof.
  apply (update_runs_download_step
           (always (Responded (release_with_tag "v1.1.0")))
           (start VersionFlow_init) "1.0.0" "u" "r" "v1.1.0" false
           (Some "secret") ["app.bin"] None None []
           (release_with_tag "v1.1.0") (release_with_tag "v1.1.0")
           (JDict [("name", JStr "release"); ("tag_name", JStr "v1.1.0")])
           "v1.1.0" (1, 1, 0) (1, 0, 0));
    try reflexivity; try (cbn; lia); try (left; cbn; lia).
Defined.

(** X16: two or more extra positional arguments break the download step:
    the second one is bound to [private], which the call also passes by
    keyword, so the call fails with [TypeError], after it has set
    [update_available] and emitted the advisory for a missing directory,
    and without a second request. *)
Theorem extra_arguments_raise_TypeError (w : world) (st : state)
  (cur u r rel : string) (private : bool) (token : option string)
  (files : list string) (dd : option string)
  (um : option callable) (args : list pyarg)
  (resp : response) (j : json) (tag : string) (t_tag t_cur : Z * Z * Z) :
  credentials_ok private token = true ->
  net w (requests_sent (log st)) (release_request u r rel token)
    = Responded resp ->
  raise_for_status resp = None ->
  body resp = Some j ->
  subscript j "tag_name" = Ok (JStr tag) ->
  parse tag = Ok t_tag ->
  parse cur = Ok t_cur ->
  triple_ge t_tag t_cur ->
  (2 <= List.length args)%nat ->
  check_for_updates_in_github w cur u r rel private token true
    (Some files) dd um args st
  = (Raise (TypeError multiple_values_msg),
     {| self := found (self st);
        log := (log st ++ advisory private token
                ++ [Get (release_request u r rel token)])
               ++ directory_advisory dd |}).
Proof.
  intros Hcred Hnet Hstatus Hbody Hsub Htag Hcur Hge Hargs.
  destruct (tag_comparison tag cur t_tag t_cur Htag Hcur) as (v & Hv & Hgt).
  apply tuple_lt_false_iff in Hge. rewrite Hge in Hgt. cbn [negb] in Hgt.
  rewrite check_for_updates_eval, Hcred, Hnet, Hstatus, Hbody, Hsub, Hv, Hgt.
  cbn [negb].
  destruct args as [|a [|b args]]; cbn in Hargs; try lia. reflexivity.
Qed.

Lemma extra_arguments_raise_TypeError_witness :
  check_for_updates_in_github
    (always (Responded (release_with_tag "v1.1.0")))
    "1.0.0" "u" "r" "latest" false None true (Some ["app.bin"])
    (Some "/tmp") (Some "restart") [ArgStr "now"; ArgInt 5]
    (start VersionFlow_init)
  = (Raise (TypeError multiple_values_msg),
     {| self := found VersionFlow_init;
        log := [Get (release_request "u" "r" "latest" None)] |}).
Proof.
  apply (extra_arguments_raise_TypeError
           (always (Responded (release_with_tag "v1.1.0")))
           (start VersionFlow_init) "1.0.0" "u" "r" "latest" false None
           ["app.bin"] (Some "/tmp") (Some "restart")
           [ArgStr "now"; ArgInt 5]
           (release_with_tag "v1.1.0")
           (JDict [("name", JStr "release"); ("tag_name", JStr "v1.1.0")])
           "v1.1.0" (1, 1, 0) (1, 0, 0));
    try reflexivity; try (cbn; lia); try (left; cbn; lia).
Defined.

(** X17: the statement [with VersionFlow() as vf: block].  The probe of
    [https://www.google.com] with timeout 3 runs first, on a new object.
    When it gets a response, the block runs with [internet_status] telling
    whether the status code is 200; when the GET fails with a
    [requests.ConnectionError], the block runs with [internet_status]
    false; and the outcome of the statement is the outcome of the block:
    [__exit__] suppresses no exception.  When the GET fails otherwise, the
    block does not run and the exception is raised. *)
Theorem with_VersionFlow_runs_block (w : world) (block : M unit) :
  let req := probe_request default_timeout default_server in
  let entered := fun online =>
    {| self := {| internet_status := online; update_available := false |};
       log := [Get req] |} in
  match net w 0 req with
  | Responded resp =>
      with_VersionFlow w block
      = block (entered (status_code resp =? 200))
  | Failed e =>
      if Requests.is_ConnectionError e
      then with_VersionFlow w block = block (entered false)
      else with_VersionFlow w block
           = (Raise (RequestsError e), entered false)
  end.
Proof.
  cbv zeta.
  assert (Hblock : forall st,
             match block st with
             | (Ok _, st') =>
                 match VersionFlow_exit None st' with
                 | (Ok _, st'') => (Ok tt, st'')
                 | (Raise e, st'') => (Raise e, st'')
                 end
             | (Raise e, st') =>
                 match VersionFlow_exit (Some e) st' with
                 | (Ok suppress, st'') =>
                     if suppress then (Ok tt, st'') else (Raise e, st'')
                 | (Raise e', st'') => (Raise e', st'')
                 end
             end = block st).
  { intros st. destruct (block st) as [[[] | e] st']; reflexivity. }
  unfold with_VersionFlow, VersionFlow_enter, check_internet_connection,
    try_except, bind, requests_get, set_internet_status, ret, start.
  cbn [log self requests_sent filter List.length app].
  fold (probe_request default_timeout default_server).
  destruct (net w 0 (probe_request default_timeout default_server))
    as [resp | e].
  - cbn [self log internet_status update_available VersionFlow_init].
    apply Hblock.
  - assert (Hc : Requests.is_ConnectionError e
                 || Requests.is_ConnectTimeout e
                 = Requests.is_ConnectionError e)
      by (destruct e; reflexivity).
    rewrite Hc.
    destruct (Requests.is_ConnectionError e); [apply Hblock | reflexivity].
Qed.

(** X18: a swallowed connection failure does not reset
    [internet_status]: after a probe that was answered with status 200, a
    second probe whose GET fails with a [requests.ConnectionError] returns
    normally and leaves [internet_status] true. *)
Theorem internet_status_is_stale (w : world) (st : state)
  (timeout timeout' : Z) (server server' : string)
  (resp : response) (e : Requests.exception) :
  net w (requests_sent (log st)) (probe_request timeout server)
    = Responded resp ->
  status_code resp = 200 ->
  net w (S (requests_sent (log st))) (probe_request timeout' server')
    = Failed e ->
  Requests.is_ConnectionError e = true ->
  (check_internet_connection w timeout server ;;;
   check_internet_connection w timeout' server')%vf st
  = (Ok tt,
     {| self := {| internet_status := true;
                   update_available := update_available (self st) |};
        log := (log st ++ [Get (probe_request timeout server)])
               ++ [Get (probe_request timeout' server')] |}).
Proof.
  intros Hnet Hcode Hnet' He.
  unfold bind at 1.
  unfold check_internet_connection at 1.
  unfold try_except, bind, requests_get, set_internet_status, ret.
  fold (probe_request timeout server). rewrite Hnet. cbn [self log].
  rewrite Hcode. change (200 =? 200) with true.
  unfold check_internet_connection, try_except, bind, requests_get,
    set_internet_status, ret.
  cbn [self log]. fold (probe_request timeout' server').
  rewrite requests_sent_snoc_get, Hnet', He. reflexivity.
Qed.

Lemma internet_status_is_stale_witness :
  let w :=
    {| net := fun n _ =>
                match n with
                | O => Responded (release_with_tag "v1")
                | S _ => Failed Requests.ConnectionError
                end;
       cwd := "/" |} in
  (check_internet_connection w 3 "https://example.org" ;;;
   check_internet_connection w 3 "https://example.org")%vf
    (start VersionFlow_init)
  = (Ok tt,
     {| self := {| internet_status := true; update_available := false |};
        log := [Get (probe_request 3 "https://example.org");
                Get (probe_request 3 "https://example.org")] |}).
Proof.
  cbv zeta.
  apply (internet_status_is_stale
           {| net := fun n _ =>
                       match n with
                       | O => Responded (release_with_tag "v1")
                       | S _ => Failed Requests.ConnectionError
                       end;
              cwd := "/" |}
           (start VersionFlow_init) 3 3 "https://example.org"
           "https://example.org" (release_with_tag "v1")
           Requests.ConnectionError);
    reflexivity.
Defined.

(** X19: without a token and without [private], both methods ask for the
    release anonymously: no advisory about the credentials is emitted and
    the request carries no headers. *)
Theorem anonymous_request (w : world) (st : state)
  (cur u r rel : string) (upd : bool) (files : option (list string))
  (files' : list string) (dd : option string) (tv : pyarg)
  (um : option callable) (args : list pyarg) :
  let req := fun release =>
    {| req_url := api_url u r release;
       req_headers := None;
       req_timeout := None |} in
  (exists tail,
      log (snd (check_for_updates_in_github w cur u r rel false None upd
                  files dd um args st))
      = (log st ++ Get (req rel) :: tail)%list) /\
  log (snd (update_from_github w u r files' dd tv false None um args st))
  = (log st ++ directory_advisory dd ++ [Get (req (format_arg tv))])%list.
Proof.
  cbv zeta. split.
  - pose proof (check_for_updates_proceeds w st cur u r rel false None upd
                  files dd um args eq_refl) as [Hlog _].
    exact Hlog.
  - rewrite update_from_github_eval. cbn [credentials_ok negb].
    destruct (net w _ _) as [resp | e];
      [destruct (raise_for_status resp)|]; reflexivity.
Qed.

Lemma raise_for_status_None_iff (resp : response) :
  raise_for_status resp = None <-> ~ (400 <= status_code resp < 600).
Proof.
  unfold raise_for_status.
  destruct ((400 <=? status_code resp) && (status_code resp <? 500)) eqn:H4.
  - apply andb_true_iff in H4 as [H H']. apply Z.leb_le in H.
    apply Z.ltb_lt in H'. split; [discriminate | lia].
  - destruct ((500 <=? status_code resp) && (status_code resp <? 600)) eqn:H5.
    + apply andb_true_iff in H5 as [H H']. apply Z.leb_le in H.
      apply Z.ltb_lt in H'. split; [discriminate | lia].
    + split; [|reflexivity]. intros _.
      apply andb_false_iff in H4, H5.
      destruct H4 as [H4 | H4], H5 as [H5 | H5];
        try apply Z.leb_gt in H4; try apply Z.ltb_ge in H4;
        try apply Z.leb_gt in H5; try apply Z.ltb_ge in H5; lia.
Qed.

(** X20: the download step returns normally exactly when the credentials
    pass validation and the request for the release is answered with a
    status code outside 400..599. *)
Theorem update_from_github_succeeds_iff (w : world) (st : state)
  (u r : string) (files : list string) (dd : option string) (tv : pyarg)
  (private : bool) (token : option string) (um : option callable)
  (args : list pyarg) :
  fst (update_from_github w u r files dd tv private token um args st)
  = Ok tt
  <->
  (credentials_ok private token = true /\
   exists resp,
     net w (requests_sent (log st))
       (release_request u r (format_arg tv) token) = Responded resp /\
     ~ (400 <= status_code resp < 600)).
Proof.
  rewrite update_from_github_eval.
  destruct (credentials_ok private token).
  - destruct (net w _ _) as [resp | e].
    + pose proof (raise_for_status_None_iff resp) as Hs.
      destruct (raise_for_status resp); cbn [fst]; split.
      * discriminate.
      * intros (_ & resp' & [= <-] & Hcode). apply Hs in Hcode. discriminate.
      * intros _. split; [reflexivity|]. exists resp.
        split; [reflexivity | apply Hs; reflexivity].
      * reflexivity.
    + cbn [fst]. split; [discriminate|].
      intros (_ & resp & Hresp & _). discriminate Hresp.
  - cbn [fst]. split; [discriminate|]. intros [H _]. discriminate H.
Qed.

(** X21: the update check returns a tag only in a call without [update]:
    when it returns one, [update] was false and [update_available] is set
    afterwards. *)
Theorem tag_is_returned_without_update (w : world) (st : state)
  (cur u r rel : string) (private : bool) (token : option string)
  (upd : bool) (files : option (list string)) (dd : option string)
  (um : option callable) (args : list pyarg) (tag : json) :
  fst (check_for_updates_in_github w cur u r rel private token upd files
         dd um args st) = Ok (Some tag) ->
  upd = false /\
  update_available
    (self (snd (check_for_updates_in_github w cur u r rel private token
                  upd files dd um args st))) = true.
Proof.
  rewrite check_for_updates_eval. destruct upd; cbn [negb];
    repeat match goal with
           | |- context [match ?x with _ => _ end] => destruct x
           | |- context [if ?x then _ else _] => destruct x
           end;
    cbn [fst snd self found update_available];
    intros H; try discriminate H; split; reflexivity.
Qed.

Lemma tag_is_returned_without_update_witness :
  false = false /\
  update_available
    (self (snd (check_for_updates_in_github
                  (always (Responded (release_with_tag "v1.1.0")))
                  "1.0.0" "u" "r" "latest" false None false None None None
                  [] (start VersionFlow_init)))) = true.
Proof.
  apply (tag_is_returned_without_update
           (always (Responded (release_with_tag "v1.1.0")))
           (start VersionFlow_init) "1.0.0" "u" "r" "latest" false None
           false None None None [] (JStr "v1.1.0")).
  reflexivity.
Defined.
